(** * pyneed.db.postgre: the connection manager and its query builder

    A shallow embedding of [PgManager] (src/pyneed/db/postgre.py).

    - Part 1 embeds the text that [select] builds: a pure function of
      its arguments.
    - Part 2 embeds the stateful methods ([connect], [cursor],
      [execute], [reset], [close], [select], [batch_execute]) as
      computations in a state-and-exception monad over the manager's
      fields and a model of the psycopg2 driver.
    - Part 3 embeds two pure helpers of pyneed.utils:
      [chunked_iterable] (src/pyneed/utils/common.py) and
      [_filename_without_prefix] (src/pyneed/utils/io.py). *)

From stdpp Require Import base option list strings pretty gmap.
From Stdlib Require Import ZArith Lia Ascii.
From Equations Require Import Equations.
From Equations.Prop Require Import Logic.


(** ** Part 1: the query builder of [select] *)

Module Query.

(** Python values that can stand as a filter value.  A scalar is one of
    [str], [None], [int], [bool], [float]; a float is carried as the
    text [str()] gives for it, which is all [select] uses of it.  An
    iterable (list, tuple) holds scalars. *)
Inductive Atom : Type :=
  | AStr (s : string)
  | ANone
  | AInt (z : Z)
  | ABool (b : bool)
  | AFloat (text : string).

Inductive Value : Type :=
  | Scalar (a : Atom)
  | Iter (items : list Atom).

(** [str(x)] on a scalar. *)
Definition py_str (a : Atom) : string :=
  match a with
  | AStr s => s
  | ANone => "None"
  | AInt z => pretty z
  | ABool true => "True"
  | ABool false => "False"
  | AFloat text => text
  end.

(** [sep.join(parts)]. *)
Definition join (sep : string) (parts : list string) : string :=
  String.concat sep parts.

(** Truth value of a string: non-empty. *)
Definition str_truthy (s : string) : bool :=
  match s with
  | EmptyString => false
  | String _ _ => true
  end.

(** Lines 136-145: the [if]/[elif] chain on the filter value, and the
    [{value}] interpolation of line 147 for the values the chain leaves
    alone. *)
Definition render_value (value : Value) : string :=
  match value with
  | Scalar (AStr s) => "'" +:+ s +:+ "'"
  | Scalar ANone => "null"
  | Iter items => "(" +:+ join "," (map py_str items) +:+ ")"
  | Scalar a => py_str a
  end.

(** Line 147: [f"{column} {filter_type} {value}"]. *)
Definition filter_fragment (filter_type column : string) (value : Value) : string :=
  column +:+ " " +:+ filter_type +:+ " " +:+ render_value value.

(** A dict in insertion order. *)
Definition dict (V : Type) : Type := list (string * V).

(** Lines 130-147: the inner loop appends one fragment per column. *)
Definition collect_conditions (filter_type : string) (filter_conditions : dict Value)
    (all_filters : list string) : list string :=
  fold_left (fun acc cv => (acc ++ [filter_fragment filter_type (fst cv) (snd cv)])%list)
            filter_conditions all_filters.

(** Lines 125-150: the outer loop; [query_filters] is re-joined at the
    end of every iteration and stays empty when there is none. *)
Definition collect_filters (filters : dict (dict Value)) : list string * string :=
  fold_left (fun st fc =>
               let all_filters := collect_conditions (fst fc) (snd fc) (fst st) in
               (all_filters, join " AND " all_filters))
            filters ([], "").

Inductive Columns : Type :=
  | ColStr (s : string)
  | ColList (names : list string).

(** The keyword arguments of [select]. *)
Record SelectArgs : Type := {
  columns : Columns;
  filters : dict (dict Value);
  order_by : option string;
  ascending : bool;
  limit : option Z;
  random : bool
}.

(** Lines 95-100: the defaults of the signature. *)
Definition default_args : SelectArgs := {|
  columns := ColStr "*";
  filters := [];
  order_by := None;
  ascending := true;
  limit := Some 1%Z;
  random := false
|}.

(** Truth value of [order_by] and of [limit]. *)
Definition order_by_truthy (order_by : option string) : bool :=
  match order_by with
  | Some s => str_truthy s
  | None => false
  end.

Definition limit_truthy (limit : option Z) : bool :=
  match limit with
  | Some z => negb (z =? 0)%Z
  | None => false
  end.

Definition order_by_text (order_by : option string) : string :=
  match order_by with
  | Some s => s
  | None => "None"
  end.

Definition limit_text (limit : option Z) : string :=
  match limit with
  | Some z => pretty z
  | None => "None"
  end.

(** Lines 118-122. *)
Definition base_query (table : string) (args : SelectArgs) : string :=
  let columns :=
    match columns args with
    | ColList names => join "," names
    | ColStr s => s
    end in
  "SELECT " +:+ columns +:+ " FROM " +:+ table.

(** Lines 152-153. *)
Definition add_where (query : string) (args : SelectArgs) : string :=
  let query_filters := snd (collect_filters (filters args)) in
  if str_truthy query_filters then query +:+ " WHERE " +:+ query_filters else query.

(** Lines 156-159: four rebindings of [query], in this order. *)
Definition add_options (query : string) (args : SelectArgs) : string :=
  let query := if random args then query +:+ " ORDER BY random()" else query in
  let query := if order_by_truthy (order_by args)
               then query +:+ " ORDER BY " +:+ order_by_text (order_by args) else query in
  let query := if negb (ascending args) then query +:+ " DESC" else query in
  let query := if limit_truthy (limit args)
               then query +:+ " LIMIT " +:+ limit_text (limit args) else query in
  query.

(** Lines 117-159: the text of the query [select] issues. *)
Definition build_query (table : string) (args : SelectArgs) : string :=
  add_options (add_where (base_query table args) args) args.

(** The optional clauses as the specification lists them, one after the
    other: the text that [add_options] is compared with. *)
Definition options_suffix (args : SelectArgs) : string :=
  (if random args then " ORDER BY random()" else "")
  +:+ (match order_by args with
       | Some (String c s) => " ORDER BY " +:+ String c s
       | _ => ""
       end)
  +:+ (if ascending args then "" else " DESC")
  +:+ (match limit args with
       | Some z => if (z =? 0)%Z then "" else " LIMIT " +:+ pretty z
       | None => ""
       end).

(** [needle in hay]. *)
Fixpoint is_prefix (p s : string) : bool :=
  match p, s with
  | EmptyString, _ => true
  | String a p', String b s' => if Ascii.eqb a b then is_prefix p' s' else false
  | String _ _, EmptyString => false
  end.

Fixpoint contains (needle hay : string) : bool :=
  is_prefix needle hay ||
  match hay with
  | EmptyString => false
  | String _ hay' => contains needle hay'
  end.

End Query.

(** ** Part 2: the connection manager *)

Module Pg.

(** Line 8. *)
Definition LIMIT_RETRIES : nat := 5.

(** *** Exceptions

    The classes the [except] clauses tell apart.  In psycopg2
    [OperationalError] is a subclass of [DatabaseError], and
    [InterfaceError] is a [psycopg2.Error] outside [DatabaseError].
    [DatabaseError] below stands for [DatabaseError] and its subclasses
    other than [OperationalError] ([ProgrammingError], ...). *)
Inductive Exn : Type :=
  | OperationalError (msg : string)
  | DatabaseError (msg : string)
  | InterfaceError (msg : string)
  | AttributeError (msg : string)
  | OtherException (msg : string).

(** [isinstance(error, psycopg2.OperationalError)]. *)
Definition is_OperationalError (e : Exn) : bool :=
  match e with
  | OperationalError _ => true
  | _ => false
  end.

(** [isinstance(error, (psycopg2.DatabaseError, psycopg2.OperationalError))]. *)
Definition is_DatabaseError (e : Exn) : bool :=
  match e with
  | OperationalError _ | DatabaseError _ => true
  | _ => false
  end.

(** *** The driver

    A row is a named tuple: field names with their values. *)
Definition Row : Type := list (string * Query.Atom).

(** What the server answers.  [connect_outcome n] is the outcome of the
    [n]-th evaluation of line 25 (counted from 0): the call of
    [psycopg2.connect] with the configuration [affinity_db_config],
    which the class reads and does not define; [execute_outcome n query]
    is the outcome of the [n]-th statement sent to the server. *)
Inductive ConnectOutcome : Type :=
  | ConnectOk
  | ConnectFails (e : Exn).

Inductive ExecuteOutcome : Type :=
  | ExecuteOk (rows : list Row)
  | ExecuteFails (e : Exn).

Record Driver : Type := {
  connect_outcome : nat -> ConnectOutcome;
  execute_outcome : nat -> string -> ExecuteOutcome
}.

(** A cursor object of the driver: the connection it is bound to, its
    own closed flag, whether it is a named (server-side) cursor, and the
    rows of the last statement that are not fetched yet ([None]: no
    result to fetch). *)
Record CursorObj : Type := {
  cur_conn : nat;
  cur_closed : bool;
  cur_named : bool;
  cur_rows : option (list Row)
}.

(** What the program shows of itself: the lines it prints, the time it
    sleeps, and the calls that reach the server. *)
Inductive Event : Type :=
  | SayConnecting
  | SayReconnecting (error : Exn) (retry_counter : nat)
  | SayRetrying (error : Exn) (retry_counter : nat)
  | SayClosed
  | Sleep (seconds : nat)
  | ServerConnect
  | ServerExecute (query : string).

(** The driver's side of the state: connections and cursors are objects
    that the manager holds by reference. *)
Record World : Type := {
  connect_calls : nat;
  execute_calls : nat;
  open_conns : gset nat;
  cursors : list CursorObj;
  trace : list Event
}.

(** Lines 13-15 and 162: the fields of the manager.  [last_query] is
    unset until the first [select]. *)
Record PgManager : Type := {
  _connection : option nat;
  _cursor : option nat;
  reconnect : bool;
  last_query : option string
}.

Record State : Type := {
  self : PgManager;
  world : World
}.

(** *** State and exceptions *)

Inductive Res (A : Type) : Type :=
  | Returns (a : A)
  | Raises (e : Exn)
  | OutOfFuel.
Arguments Returns {A} a.
Arguments Raises {A} e.
Arguments OutOfFuel {A}.

Definition M (A : Type) : Type := State -> Res A * State.

#[export] Instance M_ret : MRet M := fun A a s => (Returns a, s).

#[export] Instance M_bind : MBind M := fun A B f m s =>
  match m s with
  | (Returns a, s') => f a s'
  | (Raises e, s') => (Raises e, s')
  | (OutOfFuel, s') => (OutOfFuel, s')
  end.

Definition raise {A : Type} (e : Exn) : M A := fun s => (Raises e, s).

Definition out_of_fuel {A : Type} : M A := fun s => (OutOfFuel, s).

(** [try: body except Exception as error: handler]. *)
Definition try_except {A : Type} (body : M A) (handler : Exn -> M A) : M A := fun s =>
  match body s with
  | (Raises e, s') => handler e s'
  | other => other
  end.

Definition get_self : M PgManager := fun s => (Returns (self s), s).

Definition get_world : M World := fun s => (Returns (world s), s).

Definition on_self (f : PgManager -> PgManager) (s : State) : State :=
  {| self := f (self s); world := world s |}.

Definition on_world (f : World -> World) (s : State) : State :=
  {| self := self s; world := f (world s) |}.

Definition modify_self (f : PgManager -> PgManager) : M unit := fun s =>
  (Returns tt, on_self f s).

Definition modify_world (f : World -> World) : M unit := fun s =>
  (Returns tt, on_world f s).

(** Assignments to the fields of [self]. *)
Definition with_connection (c : option nat) (m : PgManager) : PgManager :=
  {| _connection := c; _cursor := _cursor m;
     reconnect := reconnect m; last_query := last_query m |}.

Definition with_cursor (cur : option nat) (m : PgManager) : PgManager :=
  {| _connection := _connection m; _cursor := cur;
     reconnect := reconnect m; last_query := last_query m |}.

Definition with_last_query (q : string) (m : PgManager) : PgManager :=
  {| _connection := _connection m; _cursor := _cursor m;
     reconnect := reconnect m; last_query := Some q |}.

Definition set_connection (c : option nat) : M unit := modify_self (with_connection c).
Definition set_cursor (cur : option nat) : M unit := modify_self (with_cursor cur).
Definition set_last_query (q : string) : M unit := modify_self (with_last_query q).

(** Changes of the driver's side. *)
Definition log (ev : Event) (w : World) : World :=
  {| connect_calls := connect_calls w; execute_calls := execute_calls w;
     open_conns := open_conns w; cursors := cursors w;
     trace := trace w ++ [ev] |}.

Definition count_connect (w : World) : World :=
  {| connect_calls := S (connect_calls w); execute_calls := execute_calls w;
     open_conns := open_conns w; cursors := cursors w; trace := trace w |}.

Definition count_execute (w : World) : World :=
  {| connect_calls := connect_calls w; execute_calls := S (execute_calls w);
     open_conns := open_conns w; cursors := cursors w; trace := trace w |}.

Definition add_connection (c : nat) (w : World) : World :=
  {| connect_calls := connect_calls w; execute_calls := execute_calls w;
     open_conns := {[c]} ∪ open_conns w; cursors := cursors w; trace := trace w |}.

Definition drop_connection (c : nat) (w : World) : World :=
  {| connect_calls := connect_calls w; execute_calls := execute_calls w;
     open_conns := open_conns w ∖ {[c]}; cursors := cursors w; trace := trace w |}.

Definition add_cursor (o : CursorObj) (w : World) : World :=
  {| connect_calls := connect_calls w; execute_calls := execute_calls w;
     open_conns := open_conns w; cursors := cursors w ++ [o]; trace := trace w |}.

(** A change of the cursor object [cur]; none when there is no such
    object. *)
Definition alter_cursor (f : CursorObj -> CursorObj) (cur : nat) (w : World) : World :=
  {| connect_calls := connect_calls w; execute_calls := execute_calls w;
     open_conns := open_conns w; cursors := alter f cur (cursors w); trace := trace w |}.

(** [print(...)] and [time.sleep(...)]. *)
Definition say (ev : Event) : M unit := modify_world (log ev).
Definition sleep (seconds : nat) : M unit := modify_world (log (Sleep seconds)).

(** *** The calls into psycopg2 *)

Section Methods.

Variable d : Driver.

(** [psycopg2.connect(...)]: the next outcome of the server.  A new
    connection is named by the number of the call that opened it. *)
Definition psycopg2_connect : M nat :=
  w ← get_world;
  let n := connect_calls w in
  modify_world (log ServerConnect);;
  modify_world count_connect;;
  match connect_outcome d n with
  | ConnectOk => modify_world (add_connection n);; mret n
  | ConnectFails e => raise e
  end.

(** [connection.close()]: never raises, also on a closed connection. *)
Definition connection_close (c : nat) : M unit :=
  modify_world (drop_connection c).

(** A cursor object as [connection.cursor(...)] makes it. *)
Definition fresh_cursor (c : nat) (named : bool) : CursorObj :=
  {| cur_conn := c; cur_closed := false; cur_named := named; cur_rows := None |}.

(** [connection.cursor(...)]: a new cursor object, named by its place in
    the store; refused on a closed connection. *)
Definition connection_cursor (c : nat) (named : bool) : M nat :=
  w ← get_world;
  if bool_decide (c ∈ open_conns w) then
    modify_world (add_cursor (fresh_cursor c named));;
    mret (length (cursors w))
  else raise (InterfaceError "connection already closed").

(** [cursor.closed]: the cursor's flag, or its connection is closed. *)
Definition closed (w : World) (cur : nat) : bool :=
  match cursors w !! cur with
  | Some o => cur_closed o || negb (bool_decide (cur_conn o ∈ open_conns w))
  | None => true
  end.

Definition mark_closed (o : CursorObj) : CursorObj :=
  {| cur_conn := cur_conn o; cur_closed := true;
     cur_named := cur_named o; cur_rows := None |}.

Definition set_rows (rows : option (list Row)) (o : CursorObj) : CursorObj :=
  {| cur_conn := cur_conn o; cur_closed := cur_closed o;
     cur_named := cur_named o; cur_rows := rows |}.

(** [cursor.close()]: never raises. *)
Definition cursor_close (cur : nat) : M unit :=
  modify_world (alter_cursor mark_closed cur).

(** [cursor.execute(query)]: refused on a closed cursor, else sent to
    the server. *)
Definition cursor_execute (cur : nat) (query : string) : M unit :=
  w ← get_world;
  if closed w cur then raise (InterfaceError "cursor already closed")
  else
    let n := execute_calls w in
    modify_world (log (ServerExecute query));;
    modify_world count_execute;;
    match execute_outcome d n query with
    | ExecuteOk rows => modify_world (alter_cursor (set_rows (Some rows)) cur)
    | ExecuteFails e => modify_world (alter_cursor (set_rows None) cur);; raise e
    end.

(** The rows a cursor still holds. *)
Definition pending_rows (cur : nat) : M (list Row) :=
  w ← get_world;
  if closed w cur then raise (InterfaceError "cursor already closed")
  else
    match cursors w !! cur with
    | Some {| cur_rows := Some rows |} => mret rows
    | _ => raise (DatabaseError "no results to fetch")
    end.

(** [cursor.fetchone()]: the next row, [None] when there is none left. *)
Definition cursor_fetchone (cur : nat) : M (option Row) :=
  rows ← pending_rows cur;
  match rows with
  | [] => mret None
  | row :: rest => modify_world (alter_cursor (set_rows (Some rest)) cur);; mret (Some row)
  end.

(** [cursor.fetchall()]: the rows that are left, and none is left after. *)
Definition cursor_fetchall (cur : nat) : M (list Row) :=
  rows ← pending_rows cur;
  modify_world (alter_cursor (set_rows (Some [])) cur);;
  mret rows.

(** [self._cursor.<attr>] and [self._connection.<attr>]: an attribute of
    [None] is an [AttributeError]. *)
Definition self_cursor : M nat :=
  m ← get_self;
  match _cursor m with
  | Some cur => mret cur
  | None => raise (AttributeError "'NoneType' object has no attribute")
  end.

Definition self_connection : M nat :=
  m ← get_self;
  match _connection m with
  | Some c => mret c
  | None => raise (AttributeError "'NoneType' object has no attribute")
  end.

(** *** The methods of [PgManager] *)

(** Lines 19-46.  [connect] calls itself with a larger counter; the
    recursion is on [fuel], and [connect] below gives it enough.  The
    assignments of lines 33 and 34 ([retry_counter = 0], a local, and
    [autocommit = False]) change nothing that is modelled.  The value
    of the call at line 44 is dropped: the method falls off its end. *)
Fixpoint connect_rec (fuel : nat) (retry_counter : nat) : M (option nat) :=
  match fuel with
  | O => out_of_fuel
  | S fuel' =>
      m ← get_self;
      if bool_decide (is_Some (_connection m)) then mret None
      else
        try_except
          (say SayConnecting;;
           c ← psycopg2_connect;
           set_connection (Some c);;
           mret (Some c))
          (fun error =>
             if is_OperationalError error then
               m ← get_self;
               if negb (reconnect m) || (LIMIT_RETRIES <=? retry_counter)%nat then raise error
               else
                 let retry_counter := retry_counter + 1 in
                 say (SayReconnecting error retry_counter);;
                 sleep 5;;
                 connect_rec fuel' retry_counter;;
                 mret None
             else raise error)
  end.

Definition connect (retry_counter : nat) : M (option nat) :=
  connect_rec (S (LIMIT_RETRIES - retry_counter)) retry_counter.

(** Lines 48-54. *)
Definition cursor : M (option nat) :=
  m ← get_self;
  w ← get_world;
  let no_cursor :=
    match _cursor m with
    | None => true
    | Some cur => closed w cur
    end in
  if no_cursor then
    (if bool_decide (is_Some (_connection m)) then mret tt
     else connect 0;; mret tt);;
    c ← self_connection;
    cur ← connection_cursor c false;
    set_cursor (Some cur);;
    mret (Some cur)
  else mret None.

(** Lines 82-89. *)
Definition close : M unit :=
  m ← get_self;
  match _connection m with
  | Some c =>
      match _cursor m with
      | Some cur => cursor_close cur
      | None => mret tt
      end;;
      connection_close c;;
      say SayClosed
  | None => mret tt
  end;;
  set_connection None;;
  set_cursor None.

(** Lines 77-80. *)
Definition reset : M unit :=
  close;;
  connect 0;;
  cursor;;
  mret tt.

(** What [execute] returns: the value of [fetchone()] or of
    [fetchall()]. *)
Inductive Fetched : Type :=
  | One (row : option Row)
  | All (rows : list Row).

(** Lines 56-75.  The call at line 69 passes no [is_one], and its
    value is dropped. *)
Fixpoint execute_rec (fuel : nat) (query : string) (retry_counter : nat) (is_one : bool)
    : M Fetched :=
  match fuel with
  | O => out_of_fuel
  | S fuel' =>
      try_except
        (cur ← self_cursor;
         cursor_execute cur query)
        (fun error =>
           if is_DatabaseError error then
             if (LIMIT_RETRIES <=? retry_counter)%nat then raise error
             else
               let retry_counter := retry_counter + 1 in
               say (SayRetrying error retry_counter);;
               sleep 1;;
               reset;;
               execute_rec fuel' query retry_counter false;;
               mret tt
           else raise error);;
      if is_one then
        cur ← self_cursor;
        row ← cursor_fetchone cur;
        mret (One row)
      else
        cur ← self_cursor;
        rows ← cursor_fetchall cur;
        mret (All rows)
  end.

Definition execute (query : string) (retry_counter : nat) (is_one : bool) : M Fetched :=
  execute_rec (S (LIMIT_RETRIES - retry_counter)) query retry_counter is_one.

(** Lines 91-163. *)
Definition select (table : string) (args : Query.SelectArgs) : M Fetched :=
  let query := Query.build_query table args in
  set_last_query query;;
  execute query 0 false.

(** Lines 165-170, iterated to the end: the rows the generator yields.
    The named cursor is closed when the [with] block is left;
    [itersize] sets the size of the batches and changes no row. *)
Definition batch_execute (query : string) : M (list Row) :=
  c ← self_connection;
  cur ← connection_cursor c true;
  try_except
    (cursor_execute cur query;;
     rows ← cursor_fetchall cur;
     cursor_close cur;;
     mret rows)
    (fun error => cursor_close cur;; raise error).

(** Lines 12-17. *)
Definition new_manager : PgManager :=
  {| _connection := None; _cursor := None; reconnect := true; last_query := None |}.

Definition init : M unit :=
  modify_self (fun _ => new_manager);;
  connect 0;;
  cursor;;
  mret tt.

End Methods.

(** The world before anything is connected. *)
Definition new_world : World :=
  {| connect_calls := 0; execute_calls := 0; open_conns := ∅; cursors := []; trace := [] |}.

Definition new_state : State := {| self := new_manager; world := new_world |}.

(** *** What the claims speak of *)

(** The connections the manager holds: at most the one in
    [_connection]. *)
Definition held (m : PgManager) : gset nat :=
  match _connection m with
  | Some c => {[c]}
  | None => ∅
  end.

(** Every connection that is open is the one the manager holds. *)
Definition at_most_one_live (s : State) : Prop :=
  open_conns (world s) ⊆ held (self s).

(** The manager has a cursor, and it is open. *)
Definition has_open_cursor (s : State) (cur : nat) : Prop :=
  _cursor (self s) = Some cur /\ closed (world s) cur = false.

(** The rows the cursor [cur] still holds. *)
Definition pending (w : World) (cur : nat) : option (list Row) :=
  cursors w !! cur ≫= cur_rows.

(** The state after one call of [psycopg2.connect] was made, whatever
    its outcome. *)
Definition attempted (s : State) : State :=
  on_world (fun w => count_connect (log ServerConnect (log SayConnecting w))) s.

(** The state after one statement was sent through the cursor [cur],
    with what is left to fetch. *)
Definition sent (query : string) (cur : nat) (rows : option (list Row)) (s : State) : State :=
  on_world (fun w => alter_cursor (set_rows rows) cur
                       (count_execute (log (ServerExecute query) w))) s.

(** Readings of the trace: the retry counters that were printed, the
    seconds slept, the calls of [psycopg2.connect], the statements sent. *)
Definition retries_of (ev : Event) : list nat :=
  match ev with
  | SayReconnecting _ n | SayRetrying _ n => [n]
  | _ => []
  end.

Definition sleeps_of (ev : Event) : list nat :=
  match ev with
  | Sleep n => [n]
  | _ => []
  end.

Definition statements_of (ev : Event) : list string :=
  match ev with
  | ServerExecute q => [q]
  | _ => []
  end.

Definition connects_of (ev : Event) : list unit :=
  match ev with
  | ServerConnect => [tt]
  | _ => []
  end.

Definition retries (t : list Event) : list nat := concat (map retries_of t).
Definition sleeps (t : list Event) : list nat := concat (map sleeps_of t).
Definition statements (t : list Event) : list string := concat (map statements_of t).
Definition connects (t : list Event) : nat := length (concat (map connects_of t)).

(** The events of [s'] that [s] has not yet. *)
Definition since (s s' : State) : list Event :=
  drop (length (trace (world s))) (trace (world s')).

(** Servers as the claims suppose them: one that refuses every
    connection with an [OperationalError], one that fails every
    execution of [q] with a [DatabaseError] or an [OperationalError],
    one that accepts every connection. *)
Definition refuses_all (d : Driver) : Prop :=
  forall n, exists msg, connect_outcome d n = ConnectFails (OperationalError msg).

Definition fails_all (d : Driver) (q : string) : Prop :=
  forall n, exists e, execute_outcome d n q = ExecuteFails e /\ is_DatabaseError e = true.

Definition accepts_all (d : Driver) : Prop :=
  forall n, connect_outcome d n = ConnectOk.

(** [m] keeps the property [P] of the state, and does not run out of
    fuel. *)
Definition respects (P : State -> Prop) {A : Type} (m : M A) : Prop :=
  forall s, P s -> P (snd (m s)) /\ fst (m s) <> OutOfFuel.

(** [m] leaves at most one connection open, the one the manager
    holds, when it starts so. *)
Definition keeps_one_live {A : Type} (m : M A) : Prop :=
  forall s, at_most_one_live s ->
    at_most_one_live (snd (m s))
    /\ size (open_conns (world (snd (m s)))) <= 1
    /\ fst (m s) <> OutOfFuel.

End Pg.

(** ** Servers to run the manager against *)

Module Servers.
Import Pg.

Definition row1 : Row := [("id", Query.AInt 1); ("title", Query.AStr "first")].
Definition row2 : Row := [("id", Query.AInt 2); ("title", Query.AStr "second")].

(** The first [conn_failures] connection attempts and the first
    [exec_failures] statements fail with an [OperationalError]; every
    later one succeeds, a statement with [rows]. *)
Definition flaky (conn_failures exec_failures : nat) (rows : list Row) : Driver := {|
  connect_outcome n :=
    if (n <? conn_failures)%nat
    then ConnectFails (OperationalError "could not connect to server")
    else ConnectOk;
  execute_outcome n _ :=
    if (n <? exec_failures)%nat
    then ExecuteFails (OperationalError "server closed the connection unexpectedly")
    else ExecuteOk rows
|}.

(** A server that answers every call. *)
Definition steady (rows : list Row) : Driver := flaky 0 0 rows.

(** A server that refuses every connection. *)
Definition unreachable : Driver := {|
  connect_outcome _ := ConnectFails (OperationalError "could not connect to server");
  execute_outcome _ _ := ExecuteFails (OperationalError "server closed the connection unexpectedly")
|}.

(** A server that accepts connections and fails every statement. *)
Definition dropping : Driver := {|
  connect_outcome _ := ConnectOk;
  execute_outcome _ _ := ExecuteFails (OperationalError "server closed the connection unexpectedly")
|}.

(** The manager as [PgManager()] leaves it. *)
Definition started (d : Driver) : State := snd (init d new_state).

End Servers.

(** ** More servers and states to run the manager against *)

Module Faults.
Import Pg.

(** The class as it stands: [affinity_db_config] is not defined, so
    line 26 raises an [AttributeError] before any connection is made. *)
Definition misconfigured : Driver := {|
  connect_outcome _ :=
    ConnectFails (AttributeError "'PgManager' object has no attribute 'affinity_db_config'");
  execute_outcome _ _ := ExecuteOk []
|}.

(** A server whose driver rejects every statement with an error that is
    not a [DatabaseError]. *)
Definition confused : Driver := {|
  connect_outcome _ := ConnectOk;
  execute_outcome _ _ := ExecuteFails (OtherException "not all arguments converted")
|}.

(** A started manager whose connection was closed underneath it. *)
Definition dropped (d : Driver) : State :=
  on_world (drop_connection 0) (Servers.started d).

End Faults.

(** ** The settings of the manager *)

Module Settings.
Import Pg.

(** The fields that no method but [select] assigns. *)
Definition settings_are (r : bool) (lq : option string) (s : State) : Prop :=
  reconnect (self s) = r /\ last_query (self s) = lq.

End Settings.

(** ** The conditions of a WHERE clause *)

Module QueryMore.
Import Query.

(** Every condition of every operator group, in the order of the
    mappings: what the WHERE clause is compared with. *)
Definition all_conditions (filters : dict (dict Value)) : list string :=
  flat_map (fun fc => map (fun cv => filter_fragment (fst fc) (fst cv) (snd cv)) (snd fc))
           filters.

End QueryMore.

(** ** Part 3: helpers of pyneed.utils *)

Module Common.

(** Lines 12-17: the loop of [chunked_iterable] on the items that are
    left of the iterator.  [islice] takes at most [size] of them; an
    empty chunk ends the loop. *)
Equations chunks {A : Type} (size : nat) (it : list A) : list (list A)
  by wf (length it) lt :=
  chunks size it with inspect (take size it) := {
    | exist _ [] _ => [];
    | exist _ (x :: chunk) H => (x :: chunk) :: chunks size (drop size it) }.
Next Obligation.
  intros. rewrite length_drop.
  match goal with
  | H : take ?n ?l = _ :: _ |- _ =>
      destruct n; [discriminate|]; destruct l; [discriminate|]
  end.
  cbn. lia.
Qed.

(** What iterating [chunked_iterable(iterable, size)] to its end gives,
    for an iterable with finitely many items: the chunks, or the
    [ValueError] of [islice] for a negative size. *)
Inductive Yielded (A : Type) : Type :=
  | Chunks (cs : list (list A))
  | ValueError.
Arguments Chunks {A} cs.
Arguments ValueError {A}.

(** Lines 6-17. *)
Definition chunked_iterable {A : Type} (iterable : list A) (size : Z) : Yielded A :=
  if (size <? 0)%Z then ValueError else Chunks (chunks (Z.to_nat size) iterable).

End Common.

Module Io.

(** [s.split(sep)] for a separator of one character: the pieces between
    the separators, at least one. *)
Fixpoint split (sep : Ascii.ascii) (s : string) : list string :=
  match s with
  | EmptyString => [EmptyString]
  | String c rest =>
      if Ascii.eqb c sep then EmptyString :: split sep rest
      else match split sep rest with
           | [] => [String c EmptyString]
           | piece :: pieces => String c piece :: pieces
           end
  end.

(** Lines 90-92. *)
Definition _filename_without_prefix (file : string) : string :=
  String.concat "_" (tail (split "_"%char file)).

(** [sep in s]. *)
Fixpoint has_char (sep : Ascii.ascii) (s : string) : bool :=
  match s with
  | EmptyString => false
  | String c rest => Ascii.eqb c sep || has_char sep rest
  end.

End Io.

(** ** Properties of the query builder *)

Module QueryFacts.
Import Query.

Lemma append_cons (ch : Ascii.ascii) (a b : string) :
  String ch a +:+ b = String ch (a +:+ b).
Proof. reflexivity. Qed.

Lemma append_empty_l (a : string) : "" +:+ a = a.
Proof. reflexivity. Qed.

Lemma append_assoc (a b c : string) : (a +:+ b) +:+ c = a +:+ b +:+ c.
Proof.
  induction a as [|ch a IH]; [reflexivity|].
  rewrite !append_cons, IH. reflexivity.
Qed.

Lemma append_empty_r (a : string) : a +:+ "" = a.
Proof.
  induction a as [|ch a IH]; [reflexivity|].
  rewrite append_cons, IH. reflexivity.
Qed.

Lemma add_options_suffix (query : string) (args : SelectArgs) :
  add_options query args = query +:+ options_suffix args.
Proof.
  unfold add_options, options_suffix.
  destruct args as [cols fs ob asc lim rnd]; simpl.
  destruct rnd, ob as [[|c s]|], asc, lim as [z|]; simpl;
    try destruct (z =? 0)%Z; simpl;
    rewrite ?append_assoc, ?append_empty_l, ?append_empty_r; reflexivity.
Qed.

(** The inner loop appends the fragments of its columns, in order. *)
Lemma collect_conditions_app (ft : string) (conds : dict Value) (acc : list string) :
  collect_conditions ft conds acc
  = (acc ++ map (fun cv => filter_fragment ft (fst cv) (snd cv)) conds)%list.
Proof.
  unfold collect_conditions. revert acc.
  induction conds as [|cv conds IH]; intros acc; simpl.
  - now rewrite app_nil_r.
  - rewrite IH, <- app_assoc. reflexivity.
Qed.

(** A fragment is never the empty string. *)
Lemma filter_fragment_truthy (ft column : string) (value : Value) :
  str_truthy (filter_fragment ft column value) = true.
Proof. unfold filter_fragment. destruct column; reflexivity. Qed.

Lemma add_where_single (query ft column : string) (value : Value)
    (cols : Columns) (ob : option string) (asc : bool) (lim : option Z) (rnd : bool) :
  add_where query {| columns := cols; filters := [(ft, [(column, value)])];
                     order_by := ob; ascending := asc; limit := lim; random := rnd |}
  = query +:+ " WHERE " +:+ filter_fragment ft column value.
Proof.
  unfold add_where, collect_filters; simpl.
  unfold collect_conditions; simpl.
  now rewrite filter_fragment_truthy.
Qed.

End QueryFacts.

(** ** Properties of the connection manager *)

Create HintDb respects.

Module PgFacts.
Import Pg.

Ltac run :=
  cbv [mbind mret M_bind M_ret get_self get_world modify_self modify_world raise
       out_of_fuel try_except set_connection set_cursor set_last_query say sleep
       self_cursor self_connection cursor_close connection_close
       on_self on_world];
  cbn [self world _connection _cursor reconnect last_query fst snd
       with_connection with_cursor with_last_query].

Ltac fields :=
  cbn [attempted sent on_world on_self world self log count_connect count_execute
       add_connection drop_connection add_cursor alter_cursor
       connect_calls execute_calls open_conns cursors trace
       _connection _cursor reconnect last_query
       with_connection with_cursor with_last_query] in *.

Section Facts.
Variable d : Driver.

Lemma connect_rec_connected fuel rc s :
  is_Some (_connection (self s)) ->
  connect_rec d (S fuel) rc s = (Returns None, s).
Proof.
  intros H. cbn [connect_rec]. run.
  rewrite bool_decide_eq_true_2 by exact H. reflexivity.
Qed.

Lemma connect_rec_ok fuel rc s :
  _connection (self s) = None ->
  connect_outcome d (connect_calls (world s)) = ConnectOk ->
  connect_rec d (S fuel) rc s
  = (Returns (Some (connect_calls (world s))),
     on_self (with_connection (Some (connect_calls (world s))))
       (on_world (add_connection (connect_calls (world s))) (attempted s))).
Proof.
  intros Hc Ho. cbn [connect_rec]. run. rewrite Hc.
  rewrite bool_decide_eq_false_2 by (intros [? ?]; discriminate).
  unfold psycopg2_connect. run. cbn [log connect_calls]. rewrite Ho. run. reflexivity.
Qed.

Lemma connect_rec_raise fuel rc s e :
  _connection (self s) = None ->
  connect_outcome d (connect_calls (world s)) = ConnectFails e ->
  is_OperationalError e = false \/ reconnect (self s) = false \/ LIMIT_RETRIES <= rc ->
  connect_rec d (S fuel) rc s = (Raises e, attempted s).
Proof.
  intros Hc Ho H. cbn [connect_rec]. run. rewrite Hc.
  rewrite bool_decide_eq_false_2 by (intros [? ?]; discriminate).
  unfold psycopg2_connect. run. cbn [log connect_calls]. rewrite Ho. run.
  destruct (is_OperationalError e); [|reflexivity].
  run. destruct (reconnect (self s)); cbn [negb orb]; [|reflexivity].
  destruct H as [H|[H|H]]; try discriminate.
  apply Nat.leb_le in H. rewrite H. reflexivity.
Qed.

Lemma connect_rec_retry fuel rc s e :
  _connection (self s) = None ->
  connect_outcome d (connect_calls (world s)) = ConnectFails e ->
  is_OperationalError e = true -> reconnect (self s) = true -> rc < LIMIT_RETRIES ->
  connect_rec d (S fuel) rc s
  = (connect_rec d fuel (rc + 1) ≫= fun _ => mret None)
      (on_world (fun w => log (Sleep 5) (log (SayReconnecting e (rc + 1)) w)) (attempted s)).
Proof.
  intros Hc Ho He Hr Hlt. cbn [connect_rec]. run. rewrite Hc.
  rewrite bool_decide_eq_false_2 by (intros [? ?]; discriminate).
  unfold psycopg2_connect. run. cbn [log connect_calls]. rewrite Ho. run.
  rewrite He. run. rewrite Hr. cbn [negb orb].
  apply Nat.leb_gt in Hlt. rewrite Hlt. run. reflexivity.
Qed.


Lemma bind_returns {A B} (m : M A) (f : A -> M B) s a s' :
  m s = (Returns a, s') -> (m ≫= f) s = f a s'.
Proof. intros H. cbv [mbind M_bind]. rewrite H. reflexivity. Qed.

Lemma bind_raises {A B} (m : M A) (f : A -> M B) s e s' :
  m s = (Raises e, s') -> (m ≫= f) s = (Raises e, s').
Proof. intros H. cbv [mbind M_bind]. rewrite H. reflexivity. Qed.

(** [connect] has fuel enough: it returns or raises. *)
Lemma connect_rec_total fuel : forall rc s,
  LIMIT_RETRIES - rc < fuel -> fst (connect_rec d fuel rc s) <> OutOfFuel.
Proof.
  induction fuel as [|fuel IH]; intros rc s Hf; [lia|].
  destruct (_connection (self s)) as [c|] eqn:Hc.
  { rewrite connect_rec_connected by (rewrite Hc; eauto). discriminate. }
  destruct (connect_outcome d (connect_calls (world s))) as [|e] eqn:Ho.
  { rewrite connect_rec_ok by assumption. discriminate. }
  destruct (is_OperationalError e) eqn:He;
    [|rewrite (connect_rec_raise _ _ _ e) by auto; discriminate].
  destruct (reconnect (self s)) eqn:Hr;
    [|rewrite (connect_rec_raise _ _ _ e) by auto; discriminate].
  destruct (le_lt_dec LIMIT_RETRIES rc) as [Hle|Hlt];
    [rewrite (connect_rec_raise _ _ _ e) by auto; discriminate|].
  rewrite (connect_rec_retry _ _ _ e) by assumption.
  specialize (IH (rc + 1)
    (on_world (fun w => log (Sleep 5) (log (SayReconnecting e (rc + 1)) w)) (attempted s))).
  cbv [mbind M_bind mret M_ret].
  destruct (connect_rec d fuel (rc + 1) _) as [[a|e'|] s'] eqn:Hrec; cbn [fst] in *;
    try discriminate.
  apply IH. lia.
Qed.


(** *** Readings of a trace that grows *)

Lemma retries_app t1 t2 : retries (t1 ++ t2) = retries t1 ++ retries t2.
Proof. unfold retries. now rewrite map_app, concat_app. Qed.

Lemma sleeps_app t1 t2 : sleeps (t1 ++ t2) = sleeps t1 ++ sleeps t2.
Proof. unfold sleeps. now rewrite map_app, concat_app. Qed.

Lemma statements_app t1 t2 : statements (t1 ++ t2) = statements t1 ++ statements t2.
Proof. unfold statements. now rewrite map_app, concat_app. Qed.

Lemma connects_app t1 t2 : connects (t1 ++ t2) = connects t1 + connects t2.
Proof. unfold connects. now rewrite map_app, concat_app, length_app. Qed.

Lemma since_app s s' delta :
  trace (world s') = trace (world s) ++ delta -> since s s' = delta.
Proof. intros H. unfold since. rewrite H. apply drop_app_length. Qed.

(** *** [connect] against a server that refuses every attempt *)

Lemma connect_rec_exhausts j : forall fuel rc s,
  rc + j = LIMIT_RETRIES -> j < fuel ->
  _connection (self s) = None -> reconnect (self s) = true ->
  refuses_all d ->
  exists e s' delta,
    connect_rec d fuel rc s = (Raises e, s')
    /\ connect_outcome d (connect_calls (world s) + j) = ConnectFails e
    /\ self s' = self s
    /\ connect_calls (world s') = connect_calls (world s) + S j
    /\ open_conns (world s') = open_conns (world s)
    /\ trace (world s') = trace (world s) ++ delta
    /\ connects delta = S j
    /\ retries delta = seq (rc + 1) j
    /\ sleeps delta = repeat 5 j.
Proof.
  induction j as [|j IH]; intros fuel rc s Hrc Hf Hc Hr Hall;
    (destruct fuel as [|fuel]; [lia|]);
    destruct (Hall (connect_calls (world s))) as [msg Ho].
  - exists (OperationalError msg), (attempted s), [SayConnecting; ServerConnect].
    rewrite (connect_rec_raise _ _ _ _ Hc Ho) by (right; right; lia).
    rewrite Nat.add_0_r. fields.
    repeat split; try reflexivity; try lia; try assumption.
    now rewrite <- app_assoc.
  - rewrite (connect_rec_retry _ _ _ _ Hc Ho) by (trivial; lia).
    set (s1 := on_world _ (attempted s)).
    destruct (IH fuel (rc + 1) s1) as (e & s' & delta & Hrun & Hlast & Hself & Hn & Hop & Ht & Hk & Hrs & Hsl);
      try assumption; try lia.
    exists e, s',
      ([SayConnecting; ServerConnect; SayReconnecting (OperationalError msg) (rc + 1); Sleep 5]
         ++ delta).
    rewrite (bind_raises _ _ _ _ _ Hrun).
    subst s1; fields.
    repeat split; try assumption; try lia.
    + rewrite <- Hlast. f_equal. lia.
    + rewrite Ht. now rewrite <- !app_assoc.
    + rewrite connects_app, Hk. reflexivity.
    + rewrite retries_app, Hrs.
      replace (rc + 1 + 1) with (S (rc + 1)) by lia. reflexivity.
    + rewrite sleeps_app, Hsl. reflexivity.
Qed.


(** *** [connect] against a server that comes up after [k] refusals *)

Lemma connect_rec_after_failures k : forall fuel rc s,
  rc + k <= LIMIT_RETRIES -> k < fuel ->
  _connection (self s) = None -> reconnect (self s) = true ->
  (forall i, i < k ->
     exists msg, connect_outcome d (connect_calls (world s) + i)
                 = ConnectFails (OperationalError msg)) ->
  connect_outcome d (connect_calls (world s) + k) = ConnectOk ->
  exists s',
    connect_rec d fuel rc s
    = (Returns (match k with
                | O => Some (connect_calls (world s))
                | S _ => None
                end), s')
    /\ _connection (self s') = Some (connect_calls (world s) + k)
    /\ _cursor (self s') = _cursor (self s)
    /\ open_conns (world s') = {[connect_calls (world s) + k]} ∪ open_conns (world s)
    /\ connect_calls (world s') = connect_calls (world s) + S k.
Proof.
  induction k as [|k IH]; intros fuel rc s Hrc Hf Hc Hr Hfail Hok;
    (destruct fuel as [|fuel]; [lia|]).
  - rewrite Nat.add_0_r in *.
    eexists. split; [apply connect_rec_ok; assumption|].
    fields. repeat split; try reflexivity; lia.
  - destruct (Hfail 0) as [msg Ho]; [lia|]. rewrite Nat.add_0_r in Ho.
    rewrite (connect_rec_retry _ _ _ _ Hc Ho) by (trivial; lia).
    set (s1 := on_world _ (attempted s)).
    destruct (IH fuel (rc + 1) s1) as (s' & Hrun & Hconn & Hcur & Hop & Hn);
      try assumption; try lia.
    + intros i Hi. subst s1; fields.
      destruct (Hfail (S i)) as [m Hm]; [lia|]. exists m.
      rewrite <- Hm. f_equal. lia.
    + subst s1; fields. rewrite <- Hok. f_equal. lia.
    + exists s'. rewrite (bind_returns _ _ _ _ _ Hrun).
      subst s1; fields.
      replace (connect_calls (world s) + S k) with (S (connect_calls (world s)) + k) by lia.
      repeat split; try assumption. lia.
Qed.


(** *** [close], [cursor] and [reset] *)

Lemma close_run s :
  exists s' delta,
    close s = (Returns tt, s')
    /\ _connection (self s') = None
    /\ _cursor (self s') = None
    /\ reconnect (self s') = reconnect (self s)
    /\ connect_calls (world s') = connect_calls (world s)
    /\ execute_calls (world s') = execute_calls (world s)
    /\ open_conns (world s') = open_conns (world s) ∖ held (self s)
    /\ trace (world s') = trace (world s) ++ delta
    /\ connects delta = 0 /\ retries delta = [] /\ sleeps delta = []
    /\ statements delta = [].
Proof.
  destruct s as [[conn cur rc lq] w]. unfold close, held. fields.
  destruct conn as [c|]; [destruct cur as [k|]|]; run.
  - eexists; exists [SayClosed]. split; [reflexivity|]. fields.
    repeat split; reflexivity.
  - eexists; exists [SayClosed]. split; [reflexivity|]. fields.
    repeat split; reflexivity.
  - eexists; exists []. split; [reflexivity|]. fields.
    repeat split; try reflexivity;
      [now rewrite difference_empty_L | now rewrite app_nil_r].
Qed.

Lemma cursor_opened s c :
  match _cursor (self s) with
  | None => True
  | Some cur => closed (world s) cur = true
  end ->
  _connection (self s) = Some c -> c ∈ open_conns (world s) ->
  cursor d s
  = (Returns (Some (length (cursors (world s)))),
     on_self (with_cursor (Some (length (cursors (world s)))))
       (on_world (add_cursor (fresh_cursor c false)) s)).
Proof.
  intros Hcur Hc Hin. unfold cursor. run.
  assert (Hno : match _cursor (self s) with
                | Some cur => closed (world s) cur
                | None => true
                end = true)
    by (destruct (_cursor (self s)); auto).
  rewrite Hno.
  rewrite (bool_decide_eq_true_2 (is_Some (_connection (self s)))) by (rewrite Hc; eauto).
  rewrite Hc.
  unfold connection_cursor. run.
  rewrite bool_decide_eq_true_2 by exact Hin. run. reflexivity.
Qed.

Lemma fresh_cursor_open w c named :
  c ∈ open_conns w ->
  closed (add_cursor (fresh_cursor c named) w) (length (cursors w)) = false.
Proof.
  intros Hin. unfold closed. fields.
  rewrite list_lookup_middle by reflexivity.
  cbn [fresh_cursor cur_closed cur_conn orb].
  now rewrite bool_decide_eq_true_2.
Qed.

Lemma reset_run s :
  connect_outcome d (connect_calls (world s)) = ConnectOk ->
  exists s' cur delta,
    reset d s = (Returns tt, s')
    /\ has_open_cursor s' cur
    /\ _connection (self s') = Some (connect_calls (world s))
    /\ reconnect (self s') = reconnect (self s)
    /\ connect_calls (world s') = S (connect_calls (world s))
    /\ execute_calls (world s') = execute_calls (world s)
    /\ trace (world s') = trace (world s) ++ delta
    /\ connects delta = 1 /\ retries delta = [] /\ sleeps delta = []
    /\ statements delta = [].
Proof.
  intros Hok.
  destruct (close_run s)
    as (s1 & d1 & Hclose & Hc1 & Hk1 & Hr1 & Hn1 & He1 & Ho1 & Ht1 & Hd1 & Hd2 & Hd3 & Hd4).
  assert (Hconn : connect d 0 s1
                  = (Returns (Some (connect_calls (world s1))),
                     on_self (with_connection (Some (connect_calls (world s1))))
                       (on_world (add_connection (connect_calls (world s1))) (attempted s1))))
    by (apply connect_rec_ok; [assumption | now rewrite Hn1]).
  set (s2 := on_self _ (on_world _ (attempted s1))) in Hconn.
  assert (Hcur : cursor d s2
                 = (Returns (Some (length (cursors (world s2)))),
                    on_self (with_cursor (Some (length (cursors (world s2)))))
                      (on_world (add_cursor (fresh_cursor (connect_calls (world s1)) false)) s2))).
  { apply cursor_opened; subst s2; fields.
    - now rewrite Hk1.
    - reflexivity.
    - apply elem_of_union_l, elem_of_singleton. reflexivity. }
  set (s3 := on_self _ (on_world _ s2)) in Hcur.
  exists s3, (length (cursors (world s2))), (d1 ++ [SayConnecting; ServerConnect]).
  split.
  { unfold reset.
    rewrite (bind_returns _ _ _ _ _ Hclose), (bind_returns _ _ _ _ _ Hconn),
      (bind_returns _ _ _ _ _ Hcur). reflexivity. }
  split.
  { split; [reflexivity|]. subst s3. cbn [on_self on_world world].
    apply fresh_cursor_open. subst s2; fields.
    apply elem_of_union_l, elem_of_singleton. reflexivity. }
  subst s3 s2; fields. rewrite Hn1, He1, Hr1, Ht1.
  repeat split; try reflexivity.
  - now rewrite <- !app_assoc.
  - rewrite connects_app, Hd1. reflexivity.
  - rewrite retries_app, Hd2. reflexivity.
  - rewrite sleeps_app, Hd3. reflexivity.
  - rewrite statements_app, Hd4. reflexivity.
Qed.


(** *** [execute] *)

Lemma execute_rec_no_cursor fuel q rc is_one s :
  _cursor (self s) = None ->
  execute_rec d (S fuel) q rc is_one s
  = (Raises (AttributeError "'NoneType' object has no attribute"), s).
Proof. intros Hc. cbn [execute_rec]. run. rewrite Hc. reflexivity. Qed.

Lemma execute_rec_raise fuel q rc is_one s cur e :
  has_open_cursor s cur ->
  execute_outcome d (execute_calls (world s)) q = ExecuteFails e ->
  is_DatabaseError e = false \/ LIMIT_RETRIES <= rc ->
  execute_rec d (S fuel) q rc is_one s = (Raises e, sent q cur None s).
Proof.
  intros [Hc Ho] Hout H. cbn [execute_rec]. run. rewrite Hc.
  unfold cursor_execute. run. rewrite Ho.
  cbn [log execute_calls]. rewrite Hout. run.
  destruct (is_DatabaseError e); [|reflexivity].
  destruct H as [H|H]; [discriminate|].
  apply Nat.leb_le in H. rewrite H. reflexivity.
Qed.

Lemma execute_rec_retry fuel q rc is_one s cur e :
  has_open_cursor s cur ->
  execute_outcome d (execute_calls (world s)) q = ExecuteFails e ->
  is_DatabaseError e = true -> rc < LIMIT_RETRIES ->
  execute_rec d (S fuel) q rc is_one s
  = ((reset d ≫= fun _ => execute_rec d fuel q (rc + 1) false ≫= fun _ => mret tt)
     ≫= fun _ =>
       if is_one
       then self_cursor ≫= fun c => cursor_fetchone c ≫= fun row => mret (One row)
       else self_cursor ≫= fun c => cursor_fetchall c ≫= fun rows => mret (All rows))
      (on_world (fun w => log (Sleep 1) (log (SayRetrying e (rc + 1)) w))
         (sent q cur None s)).
Proof.
  intros [Hc Ho] Hout He Hlt. cbn [execute_rec]. run. rewrite Hc.
  unfold cursor_execute. run. rewrite Ho.
  cbn [log execute_calls]. rewrite Hout. run. rewrite He.
  apply Nat.leb_gt in Hlt. rewrite Hlt. run. reflexivity.
Qed.

Lemma execute_rec_exhausts q j : forall fuel rc is_one s cur,
  rc + j = LIMIT_RETRIES -> j < fuel ->
  has_open_cursor s cur -> fails_all d q -> accepts_all d ->
  exists e s' delta,
    execute_rec d fuel q rc is_one s = (Raises e, s')
    /\ execute_outcome d (execute_calls (world s) + j) q = ExecuteFails e
    /\ execute_calls (world s') = execute_calls (world s) + S j
    /\ trace (world s') = trace (world s) ++ delta
    /\ statements delta = repeat q (S j)
    /\ retries delta = seq (rc + 1) j
    /\ sleeps delta = repeat 1 j
    /\ connects delta = j.
Proof.
  induction j as [|j IH]; intros fuel rc is_one s cur Hrc Hf Hcur Hall Hup;
    (destruct fuel as [|fuel]; [lia|]);
    destruct (Hall (execute_calls (world s))) as (e0 & Hout & He0).
  - exists e0, (sent q cur None s), [ServerExecute q].
    rewrite (execute_rec_raise _ _ _ _ _ _ _ Hcur Hout) by (right; lia).
    rewrite Nat.add_0_r. fields.
    repeat split; try reflexivity; try lia; assumption.
  - rewrite (execute_rec_retry _ _ _ _ _ _ _ Hcur Hout He0) by lia.
    set (s1 := on_world _ (sent q cur None s)).
    destruct (reset_run s1 (Hup _))
      as (s2 & cur2 & dr & Hreset & Hcur2 & _ & _ & _ & He2 & Ht2 & Hk2 & Hr2 & Hs2 & Hq2).
    destruct (IH fuel (rc + 1) false s2 cur2)
      as (e & s' & delta & Hrun & Hlast & Hn & Ht & Hq & Hrs & Hsl & Hk);
      try assumption; try lia.
    exists e, s', ([ServerExecute q; SayRetrying e0 (rc + 1); Sleep 1] ++ dr ++ delta).
    split.
    { apply bind_raises. rewrite (bind_returns _ _ _ _ _ Hreset).
      apply bind_raises. exact Hrun. }
    rewrite Hn, Ht, Ht2, He2 in *. subst s1; fields.
    repeat split.
    + rewrite <- Hlast. f_equal. lia.
    + lia.
    + now rewrite <- !app_assoc.
    + rewrite !statements_app, Hq, Hq2. reflexivity.
    + rewrite !retries_app, Hrs, Hr2.
      replace (rc + 1 + 1) with (S (rc + 1)) by lia. reflexivity.
    + rewrite !sleeps_app, Hsl, Hs2. reflexivity.
    + rewrite !connects_app, Hk, Hk2. reflexivity.
Qed.


(** *** Fetching, and [execute] when the statement succeeds *)

Lemma closed_set_rows r cur w c :
  closed (alter_cursor (set_rows r) cur w) c = closed w c.
Proof.
  unfold closed. fields.
  destruct (decide (cur = c)) as [->|Hne].
  - rewrite list_lookup_alter_eq. destruct (cursors w !! c); reflexivity.
  - now rewrite list_lookup_alter_ne.
Qed.

Lemma pending_set_rows r cur w :
  closed w cur = false -> pending (alter_cursor (set_rows r) cur w) cur = r.
Proof.
  unfold closed, pending. fields. rewrite list_lookup_alter_eq.
  destruct (cursors w !! cur); [reflexivity | discriminate].
Qed.

Lemma pending_rows_run cur s rows :
  closed (world s) cur = false -> pending (world s) cur = Some rows ->
  pending_rows cur s = (Returns rows, s).
Proof.
  intros Hc Hp. unfold pending_rows. run. rewrite Hc.
  unfold pending in Hp. destruct (cursors (world s) !! cur) as [[c k n [r|]]|];
    cbn in Hp; try discriminate.
  now injection Hp as ->.
Qed.

Lemma fetchall_run cur s rows :
  closed (world s) cur = false -> pending (world s) cur = Some rows ->
  cursor_fetchall cur s
  = (Returns rows, on_world (alter_cursor (set_rows (Some [])) cur) s).
Proof.
  intros Hc Hp. unfold cursor_fetchall.
  rewrite (bind_returns _ _ _ _ _ (pending_rows_run _ _ _ Hc Hp)). reflexivity.
Qed.

Lemma fetchone_run cur s rows :
  closed (world s) cur = false -> pending (world s) cur = Some rows ->
  fst (cursor_fetchone cur s) = Returns (head rows).
Proof.
  intros Hc Hp. unfold cursor_fetchone.
  rewrite (bind_returns _ _ _ _ _ (pending_rows_run _ _ _ Hc Hp)).
  destruct rows; reflexivity.
Qed.

Lemma sent_open q cur rows s :
  closed (world s) cur = false ->
  closed (world (sent q cur rows s)) cur = false
  /\ pending (world (sent q cur rows s)) cur = rows.
Proof.
  intros Hc. unfold sent. cbn [on_world world]. split.
  - now rewrite closed_set_rows.
  - now apply pending_set_rows.
Qed.

Lemma execute_sends fuel q rc is_one s cur rows :
  has_open_cursor s cur ->
  execute_outcome d (execute_calls (world s)) q = ExecuteOk rows ->
  execute_rec d (S fuel) q rc is_one s
  = (if is_one
     then self_cursor ≫= fun c => cursor_fetchone c ≫= fun row => mret (One row)
     else self_cursor ≫= fun c => cursor_fetchall c ≫= fun rows => mret (All rows))
      (sent q cur (Some rows) s).
Proof.
  intros [Hc Ho] Hout. cbn [execute_rec]. run. rewrite Hc.
  unfold cursor_execute. run. rewrite Ho.
  cbn [log execute_calls]. rewrite Hout. run. reflexivity.
Qed.

(** A statement that succeeds at once gives its rows. *)
Lemma execute_first_try fuel q rc is_one s cur rows :
  has_open_cursor s cur ->
  execute_outcome d (execute_calls (world s)) q = ExecuteOk rows ->
  fst (execute_rec d (S fuel) q rc is_one s)
  = Returns (if is_one then One (head rows) else All rows).
Proof.
  intros Hcur Hout. rewrite (execute_sends _ _ _ _ _ _ _ Hcur Hout).
  destruct Hcur as [Hc Ho].
  destruct (sent_open q cur (Some rows) s Ho) as [Ho' Hp'].
  assert (Hself : self_cursor (sent q cur (Some rows) s)
                  = (Returns cur, sent q cur (Some rows) s)).
  { unfold self_cursor. run. cbn [sent on_world self]. rewrite Hc. reflexivity. }
  destruct is_one; rewrite (bind_returns _ _ _ _ _ Hself).
  - pose proof (fetchone_run _ _ _ Ho' Hp') as H1.
    cbv [mbind M_bind mret M_ret].
    destruct (cursor_fetchone cur _) as [[r|e|] s']; cbn [fst] in *; congruence.
  - rewrite (bind_returns _ _ _ _ _ (fetchall_run _ _ _ Ho' Hp')). reflexivity.
Qed.

End Facts.

(** *** Properties of the state that every method keeps *)

Section Respects.
Variable d : Driver.
Variable P : State -> Prop.

(** [P] looks at the open connections and at [_connection] only, and
    is kept when a connection is opened by a manager that has none and
    when the manager closes. *)
Hypothesis P_world : forall f s,
  (forall w, open_conns (f w) = open_conns w) -> P s -> P (on_world f s).
Hypothesis P_self : forall f s,
  (forall m, _connection (f m) = _connection m) -> P s -> P (on_self f s).
Hypothesis P_connected : forall s,
  _connection (self s) = None -> P s ->
  P (on_self (with_connection (Some (connect_calls (world s))))
       (on_world (add_connection (connect_calls (world s))) (attempted s))).
Hypothesis P_close : forall s, P s -> P (snd (close s)).

Local Abbreviation respects := (Pg.respects P).

Lemma respects_ret {A} (a : A) : respects (mret a).
Proof. intros s Hs. split; [exact Hs | discriminate]. Qed.

Lemma respects_raise {A} (e : Exn) : respects (@raise A e).
Proof. intros s Hs. split; [exact Hs | discriminate]. Qed.

Lemma respects_bind {A B} (m : M A) (f : A -> M B) :
  respects m -> (forall a, respects (f a)) -> respects (m ≫= f).
Proof.
  intros Hm Hf s Hs. destruct (Hm s Hs) as [H1 H2].
  cbv [mbind M_bind]. destruct (m s) as [[a|e|] s']; cbn [fst snd] in *.
  - apply Hf, H1.
  - split; [exact H1 | discriminate].
  - congruence.
Qed.

Lemma respects_try {A} (body : M A) (handler : Exn -> M A) :
  respects body -> (forall e, respects (handler e)) -> respects (try_except body handler).
Proof.
  intros Hm Hh s Hs. destruct (Hm s Hs) as [H1 H2].
  unfold try_except. destruct (body s) as [[a|e|] s']; cbn [fst snd] in *.
  - split; [exact H1 | discriminate].
  - apply Hh, H1.
  - congruence.
Qed.

Lemma respects_get_self : respects get_self.
Proof. intros s Hs. split; [exact Hs | discriminate]. Qed.

Lemma respects_get_world : respects get_world.
Proof. intros s Hs. split; [exact Hs | discriminate]. Qed.

Lemma respects_modify_world f :
  (forall w, open_conns (f w) = open_conns w) -> respects (modify_world f).
Proof. intros Hf s Hs. split; [now apply P_world | discriminate]. Qed.

Lemma respects_modify_self f :
  (forall m, _connection (f m) = _connection m) -> respects (modify_self f).
Proof. intros Hf s Hs. split; [now apply P_self | discriminate]. Qed.

#[local] Hint Resolve respects_ret respects_raise respects_get_self respects_get_world
  : respects.

Lemma respects_close : respects close.
Proof.
  intros s Hs. split; [now apply P_close|].
  destruct (close_run s) as (s' & delta & -> & _). discriminate.
Qed.

Ltac respects_step :=
  first
    [ solve [auto 1 with respects nocore]
    | simple apply respects_modify_world; intros ?; reflexivity
    | simple apply respects_modify_self; intros ?; reflexivity
    | simple apply respects_bind; [|intros ?]
    | simple apply respects_try; [|intros ?]
    | match goal with
      | |- respects (if ?b then _ else _) => destruct b
      | |- respects (match ?x with _ => _ end) => destruct x
      end ].

Ltac respects_auto :=
  unfold set_cursor, set_last_query, say, sleep, cursor_close;
  repeat respects_step.

#[local] Hint Resolve respects_close : respects.

Lemma respects_connect_rec fuel : forall rc,
  LIMIT_RETRIES - rc < fuel -> respects (connect_rec d fuel rc).
Proof.
  induction fuel as [|fuel IH]; intros rc Hf s Hs; [lia|].
  destruct (_connection (self s)) as [c|] eqn:Hc.
  { rewrite connect_rec_connected by (rewrite Hc; eauto).
    split; [exact Hs | discriminate]. }
  assert (Ha : P (attempted s)) by (apply P_world; [reflexivity | exact Hs]).
  destruct (connect_outcome d (connect_calls (world s))) as [|e] eqn:Ho.
  { rewrite connect_rec_ok by assumption.
    split; [now apply P_connected | discriminate]. }
  destruct (is_OperationalError e) eqn:He;
    [|rewrite (connect_rec_raise _ _ _ _ e) by auto; split; [exact Ha | discriminate]].
  destruct (reconnect (self s)) eqn:Hr;
    [|rewrite (connect_rec_raise _ _ _ _ e) by auto; split; [exact Ha | discriminate]].
  destruct (le_lt_dec LIMIT_RETRIES rc) as [Hle|Hlt];
    [rewrite (connect_rec_raise _ _ _ _ e) by auto; split; [exact Ha | discriminate]|].
  rewrite (connect_rec_retry _ _ _ _ e) by assumption.
  apply respects_bind.
  - apply IH. lia.
  - intros a. apply respects_ret.
  - apply P_world; [reflexivity | exact Ha].
Qed.

Lemma respects_connect rc : respects (connect d rc).
Proof. apply respects_connect_rec. lia. Qed.

#[local] Hint Resolve respects_connect : respects.

Lemma respects_cursor : respects (cursor d).
Proof. unfold cursor, self_connection, connection_cursor. respects_auto. Qed.

#[local] Hint Resolve respects_cursor : respects.

Lemma respects_reset : respects (reset d).
Proof. unfold reset. respects_auto. Qed.

Lemma respects_fetchone cur : respects (cursor_fetchone cur).
Proof. unfold cursor_fetchone, pending_rows. respects_auto. Qed.

Lemma respects_fetchall cur : respects (cursor_fetchall cur).
Proof. unfold cursor_fetchall, pending_rows. respects_auto. Qed.

Lemma respects_cursor_execute cur q : respects (cursor_execute d cur q).
Proof. unfold cursor_execute. respects_auto. Qed.

#[local] Hint Resolve respects_reset respects_fetchone respects_fetchall
  respects_cursor_execute : respects.

Lemma respects_execute_rec q fuel : forall rc is_one,
  LIMIT_RETRIES - rc < fuel -> respects (execute_rec d fuel q rc is_one).
Proof.
  induction fuel as [|fuel IH]; intros rc is_one Hf; [lia|].
  cbn [execute_rec]. unfold self_cursor, say, sleep.
  apply respects_bind.
  - apply respects_try.
    + respects_auto.
    + intros e. destruct (is_DatabaseError e); [|apply respects_raise].
      destruct (Nat.leb_spec LIMIT_RETRIES rc); [apply respects_raise|].
      respects_auto. apply IH. lia.
  - intros _. destruct is_one; respects_auto.
Qed.

Lemma respects_execute q rc is_one : respects (execute d q rc is_one).
Proof. apply respects_execute_rec. lia. Qed.

#[local] Hint Resolve respects_execute : respects.

Lemma respects_select table args : respects (select d table args).
Proof. unfold select, set_last_query. respects_auto. Qed.

Lemma respects_batch_execute q : respects (batch_execute d q).
Proof.
  unfold batch_execute, self_connection, connection_cursor, cursor_close.
  respects_auto.
Qed.

End Respects.

(** *** At most one connection is open *)

Lemma held_size m : size (held m) <= 1.
Proof.
  unfold held. destruct (_connection m).
  - rewrite size_singleton. lia.
  - rewrite size_empty. lia.
Qed.

Lemma one_live_size s : at_most_one_live s -> size (open_conns (world s)) <= 1.
Proof.
  intros H. etransitivity; [apply subseteq_size, H | apply held_size].
Qed.

Lemma one_live_world f s :
  (forall w, open_conns (f w) = open_conns w) -> at_most_one_live s ->
  at_most_one_live (on_world f s).
Proof. unfold at_most_one_live. intros Hf H. cbn [on_world world self]. now rewrite Hf. Qed.

Lemma one_live_self f s :
  (forall m, _connection (f m) = _connection m) -> at_most_one_live s ->
  at_most_one_live (on_self f s).
Proof.
  unfold at_most_one_live, held. intros Hf H. cbn [on_self world self]. now rewrite Hf.
Qed.

Lemma one_live_connected s :
  _connection (self s) = None -> at_most_one_live s ->
  at_most_one_live
    (on_self (with_connection (Some (connect_calls (world s))))
       (on_world (add_connection (connect_calls (world s))) (attempted s))).
Proof.
  unfold at_most_one_live, held. intros Hc H. rewrite Hc in H. fields.
  apply union_least; [reflexivity|].
  etransitivity; [exact H | apply empty_subseteq].
Qed.

Lemma one_live_close s : at_most_one_live s -> at_most_one_live (snd (close s)).
Proof.
  intros H.
  destruct (close_run s) as (s' & delta & -> & Hc & _ & _ & _ & _ & Ho & _).
  unfold at_most_one_live, held in *. cbn [snd]. rewrite Hc, Ho.
  intros x Hx. apply elem_of_difference in Hx as [Hx Hn]. exfalso. apply Hn, H, Hx.
Qed.

Lemma respects_keeps_one_live {A} (m : M A) :
  respects at_most_one_live m -> keeps_one_live m.
Proof.
  intros Hm s Hs. destruct (Hm s Hs) as [H1 H2].
  repeat split; [exact H1 | now apply one_live_size | exact H2].
Qed.

Ltac one_live lemma :=
  apply respects_keeps_one_live, lemma;
  first [ exact one_live_world | exact one_live_self
        | exact one_live_connected | exact one_live_close ].

Lemma connect_keeps_one_live d rc : keeps_one_live (connect d rc).
Proof. one_live respects_connect. Qed.

Lemma cursor_keeps_one_live d : keeps_one_live (cursor d).
Proof. one_live respects_cursor. Qed.

Lemma reset_keeps_one_live d : keeps_one_live (reset d).
Proof. one_live respects_reset. Qed.

Lemma close_keeps_one_live : keeps_one_live close.
Proof. one_live respects_close. Qed.

Lemma execute_keeps_one_live d q rc is_one : keeps_one_live (execute d q rc is_one).
Proof. one_live respects_execute. Qed.

Lemma select_keeps_one_live d table args : keeps_one_live (select d table args).
Proof. one_live respects_select. Qed.

Lemma batch_execute_keeps_one_live d q : keeps_one_live (batch_execute d q).
Proof. one_live respects_batch_execute. Qed.

Lemma init_one_live d : at_most_one_live (snd (init d new_state)).
Proof.
  assert (H : respects at_most_one_live (connect d 0 ≫= fun _ => cursor d ≫= fun _ => mret tt)).
  { apply respects_bind; [|intros ?; apply respects_bind; [|intros ?; apply respects_ret]].
    - apply respects_connect; first [exact one_live_world | exact one_live_connected].
    - apply respects_cursor;
        first [ exact one_live_world | exact one_live_self | exact one_live_connected ]. }
  apply (H new_state). unfold at_most_one_live. reflexivity.
Qed.

(** *** Every method returns or raises *)

Lemma connect_never_out_of_fuel d rc s : fst (connect d rc s) <> OutOfFuel.
Proof. apply connect_rec_total. lia. Qed.

Lemma cursor_never_out_of_fuel d s : fst (cursor d s) <> OutOfFuel.
Proof. eapply (respects_cursor d (fun _ => True)); try (intros; exact I). Qed.

Lemma reset_never_out_of_fuel d s : fst (reset d s) <> OutOfFuel.
Proof. eapply (respects_reset d (fun _ => True)); try (intros; exact I). Qed.

Lemma execute_never_out_of_fuel d q rc is_one s :
  fst (execute d q rc is_one s) <> OutOfFuel.
Proof. eapply (respects_execute d (fun _ => True)); try (intros; exact I). Qed.

Lemma select_never_out_of_fuel d table args s :
  fst (select d table args s) <> OutOfFuel.
Proof. eapply (respects_select d (fun _ => True)); try (intros; exact I). Qed.

Lemma batch_execute_never_out_of_fuel d q s :
  fst (batch_execute d q s) <> OutOfFuel.
Proof. eapply (respects_batch_execute d (fun _ => True)); try (intros; exact I). Qed.

End PgFacts.


(** ** The claims about the query builder *)

(** C3.  [select("t", filters={"=": {"a": 1}}, limit=5)] builds the text
    [SELECT * FROM t WHERE a = 1 LIMIT 5], records it as the last query
    and hands exactly this text to [execute]; run on a started manager,
    it is the statement the server receives.  With an empty [filters]
    the text is the base clause followed by the options, with no WHERE
    clause in between. *)
Theorem select_builds_the_example_query :
  Query.build_query "t"
    {| Query.columns := Query.ColStr "*";
       Query.filters := [("=", [("a", Query.Scalar (Query.AInt 1))])];
       Query.order_by := None; Query.ascending := true;
       Query.limit := Some 5%Z; Query.random := false |}
  = "SELECT * FROM t WHERE a = 1 LIMIT 5"
  /\ (forall (d : Pg.Driver) (s : Pg.State),
        Pg.select d "t"
          {| Query.columns := Query.ColStr "*";
             Query.filters := [("=", [("a", Query.Scalar (Query.AInt 1))])];
             Query.order_by := None; Query.ascending := true;
             Query.limit := Some 5%Z; Query.random := false |} s
        = Pg.execute d "SELECT * FROM t WHERE a = 1 LIMIT 5" 0 false
            (Pg.on_self (Pg.with_last_query "SELECT * FROM t WHERE a = 1 LIMIT 5") s))
  /\ (let s' := snd (Pg.select (Servers.steady [Servers.row1]) "t"
          {| Query.columns := Query.ColStr "*";
             Query.filters := [("=", [("a", Query.Scalar (Query.AInt 1))])];
             Query.order_by := None; Query.ascending := true;
             Query.limit := Some 5%Z; Query.random := false |}
          (Servers.started (Servers.steady [Servers.row1]))) in
      Pg.last_query (Pg.self s') = Some "SELECT * FROM t WHERE a = 1 LIMIT 5"
      /\ Pg.trace (Pg.world s')
         = [Pg.SayConnecting; Pg.ServerConnect;
            Pg.ServerExecute "SELECT * FROM t WHERE a = 1 LIMIT 5"])
  /\ (forall (table : string) (cols : Query.Columns) (ob : option string)
             (asc : bool) (lim : option Z) (rnd : bool),
        Query.build_query table
          {| Query.columns := cols; Query.filters := [];
             Query.order_by := ob; Query.ascending := asc;
             Query.limit := lim; Query.random := rnd |}
        = "SELECT "
          +:+ match cols with
              | Query.ColList names => Query.join "," names
              | Query.ColStr c => c
              end
          +:+ " FROM " +:+ table
          +:+ Query.options_suffix
                {| Query.columns := cols; Query.filters := [];
                   Query.order_by := ob; Query.ascending := asc;
                   Query.limit := lim; Query.random := rnd |})
  /\ Query.build_query "t" Query.default_args = "SELECT * FROM t LIMIT 1"
  /\ Query.contains "WHERE" (Query.build_query "t" Query.default_args) = false.
Proof.
  split; [vm_compute; reflexivity|].
  split; [intros d s; reflexivity|].
  split; [vm_compute; split; reflexivity|].
  split; [|split; vm_compute; reflexivity].
  intros table cols ob asc lim rnd.
  unfold Query.build_query. rewrite QueryFacts.add_options_suffix.
  unfold Query.add_where, Query.base_query; simpl.
  rewrite !QueryFacts.append_assoc. reflexivity.
Qed.

(** C4.  A filter value is rendered by a four-way split: a string
    between single quotes, as it is; [None] as [null]; an iterable as
    its elements' [str] forms joined by commas between parentheses; any
    other scalar as its [str] form.  The fragment of a filter is
    [column operator value], and it is what follows WHERE. *)
Theorem select_renders_filter_values :
  (forall s : string,
      Query.render_value (Query.Scalar (Query.AStr s)) = "'" +:+ s +:+ "'")
  /\ Query.render_value (Query.Scalar Query.ANone) = "null"
  /\ (forall items : list Query.Atom,
        Query.render_value (Query.Iter items)
        = "(" +:+ Query.join "," (map Query.py_str items) +:+ ")")
  /\ (forall z : Z, Query.render_value (Query.Scalar (Query.AInt z)) = pretty z)
  /\ (forall b : bool,
        Query.render_value (Query.Scalar (Query.ABool b)) = if b then "True" else "False")
  /\ (forall text : string,
        Query.render_value (Query.Scalar (Query.AFloat text)) = text)
  /\ (forall (table ft column : string) (value : Query.Value),
        Query.build_query table
          {| Query.columns := Query.ColStr "*";
             Query.filters := [(ft, [(column, value)])];
             Query.order_by := None; Query.ascending := true;
             Query.limit := None; Query.random := false |}
        = "SELECT * FROM " +:+ table +:+ " WHERE "
          +:+ column +:+ " " +:+ ft +:+ " " +:+ Query.render_value value)
  /\ Query.collect_filters [("is", [("title", Query.Scalar Query.ANone)])]
     = (["title is null"], "title is null")
  /\ Query.collect_filters
       [("in", [("id", Query.Iter [Query.AInt 1; Query.AInt 2; Query.AInt 3])])]
     = (["id in (1,2,3)"], "id in (1,2,3)")
  /\ Query.collect_filters [("=", [("name", Query.Scalar (Query.AStr "bob"))])]
     = (["name = 'bob'"], "name = 'bob'")
  /\ Query.collect_filters [("=", [("name", Query.Scalar (Query.AStr "o'neil"))])]
     = (["name = 'o'neil'"], "name = 'o'neil'")
  /\ Query.collect_filters [("=", [("age", Query.Scalar (Query.AInt 5))])]
     = (["age = 5"], "age = 5").
Proof.
  split; [reflexivity|].
  split; [reflexivity|].
  split; [reflexivity|].
  split; [reflexivity|].
  split; [intros b; destruct b; reflexivity|].
  split; [reflexivity|].
  split; [|repeat (split; [vm_compute; reflexivity|]); vm_compute; reflexivity].
  intros table ft column value.
  unfold Query.build_query. rewrite QueryFacts.add_where_single.
  unfold Query.base_query, Query.filter_fragment, Query.add_options; simpl.
  rewrite !QueryFacts.append_assoc. reflexivity.
Qed.

(** C5.  The optional clauses follow the query in a fixed order:
    [ORDER BY random()] when [random] is true, then [ORDER BY <order_by>]
    when [order_by] is given (a non-empty text), then [DESC] when
    [ascending] is false, also with no ORDER BY before it, then
    [LIMIT <limit>] when [limit] is neither [None] nor 0. *)
Theorem select_appends_options_in_order :
  (forall (query : string) (args : Query.SelectArgs),
      Query.add_options query args
      = query
        +:+ (if Query.random args then " ORDER BY random()" else "")
        +:+ (match Query.order_by args with
             | Some (String c s) => " ORDER BY " +:+ String c s
             | _ => ""
             end)
        +:+ (if Query.ascending args then "" else " DESC")
        +:+ (match Query.limit args with
             | Some z => if (z =? 0)%Z then "" else " LIMIT " +:+ pretty z
             | None => ""
             end))
  /\ (forall (table : string) (args : Query.SelectArgs),
        Query.build_query table args
        = Query.add_where (Query.base_query table args) args
          +:+ Query.options_suffix args)
  /\ Query.build_query "t"
       {| Query.columns := Query.ColStr "*"; Query.filters := [];
          Query.order_by := Some "id"; Query.ascending := false;
          Query.limit := Some 3%Z; Query.random := true |}
     = "SELECT * FROM t ORDER BY random() ORDER BY id DESC LIMIT 3"
  /\ Query.build_query "t"
       {| Query.columns := Query.ColStr "*"; Query.filters := [];
          Query.order_by := None; Query.ascending := false;
          Query.limit := None; Query.random := false |}
     = "SELECT * FROM t DESC".
Proof.
  split; [|split; [|split; vm_compute; reflexivity]].
  - intros query args. apply QueryFacts.add_options_suffix.
  - intros table args. unfold Query.build_query.
    apply QueryFacts.add_options_suffix.
Qed.

(** C10.  The default of [limit] is 1, so a [select] that names no
    limit ends in [LIMIT 1]; the clause is left out exactly when the
    limit is [None] or 0. *)
Theorem select_default_limit_is_one :
  Query.limit Query.default_args = Some 1%Z
  /\ (forall table : string,
        Query.build_query table Query.default_args
        = "SELECT * FROM " +:+ table +:+ " LIMIT 1")
  /\ (forall (d : Pg.Driver) (table : string) (s : Pg.State),
        Pg.select d table Query.default_args s
        = Pg.execute d ("SELECT * FROM " +:+ table +:+ " LIMIT 1") 0 false
            (Pg.on_self (Pg.with_last_query ("SELECT * FROM " +:+ table +:+ " LIMIT 1")) s))
  /\ (forall (table : string) (cols : Query.Columns) (fs : Query.dict (Query.dict Query.Value))
             (ob : option string) (asc rnd : bool),
        Query.build_query table
          {| Query.columns := cols; Query.filters := fs; Query.order_by := ob;
             Query.ascending := asc; Query.limit := Query.limit Query.default_args;
             Query.random := rnd |}
        = Query.build_query table
            {| Query.columns := cols; Query.filters := fs; Query.order_by := ob;
               Query.ascending := asc; Query.limit := None; Query.random := rnd |}
          +:+ " LIMIT 1")
  /\ (forall (table : string) (cols : Query.Columns) (fs : Query.dict (Query.dict Query.Value))
             (ob : option string) (asc rnd : bool) (z : Z),
        Query.build_query table
          {| Query.columns := cols; Query.filters := fs; Query.order_by := ob;
             Query.ascending := asc; Query.limit := Some z; Query.random := rnd |}
        = if (z =? 0)%Z
          then Query.build_query table
                 {| Query.columns := cols; Query.filters := fs; Query.order_by := ob;
                    Query.ascending := asc; Query.limit := None; Query.random := rnd |}
          else Query.build_query table
                 {| Query.columns := cols; Query.filters := fs; Query.order_by := ob;
                    Query.ascending := asc; Query.limit := None; Query.random := rnd |}
               +:+ " LIMIT " +:+ pretty z)
  /\ (forall (query : string) (cols : Query.Columns) (fs : Query.dict (Query.dict Query.Value))
             (ob : option string) (asc rnd : bool),
        Query.add_options query
          {| Query.columns := cols; Query.filters := fs; Query.order_by := ob;
             Query.ascending := asc; Query.limit := None; Query.random := rnd |}
        = query
          +:+ (if rnd then " ORDER BY random()" else "")
          +:+ (match ob with
               | Some (String c s) => " ORDER BY " +:+ String c s
               | _ => ""
               end)
          +:+ (if asc then "" else " DESC")).
Proof.
  split; [reflexivity|].
  assert (Hdef : forall table : string,
             Query.build_query table Query.default_args
             = "SELECT * FROM " +:+ table +:+ " LIMIT 1").
  { intros table. unfold Query.build_query. rewrite QueryFacts.add_options_suffix.
    unfold Query.add_where, Query.base_query, Query.options_suffix; simpl.
    rewrite !QueryFacts.append_assoc. reflexivity. }
  split; [exact Hdef|].
  split; [intros d table s; unfold Pg.select; rewrite Hdef; reflexivity|].
  assert (Hz : forall (table : string) (cols : Query.Columns)
                      (fs : Query.dict (Query.dict Query.Value))
                      (ob : option string) (asc rnd : bool) (z : Z),
        Query.build_query table
          {| Query.columns := cols; Query.filters := fs; Query.order_by := ob;
             Query.ascending := asc; Query.limit := Some z; Query.random := rnd |}
        = if (z =? 0)%Z
          then Query.build_query table
                 {| Query.columns := cols; Query.filters := fs; Query.order_by := ob;
                    Query.ascending := asc; Query.limit := None; Query.random := rnd |}
          else Query.build_query table
                 {| Query.columns := cols; Query.filters := fs; Query.order_by := ob;
                    Query.ascending := asc; Query.limit := None; Query.random := rnd |}
               +:+ " LIMIT " +:+ pretty z).
  { intros table cols fs ob asc rnd z.
    unfold Query.build_query, Query.add_options; simpl.
    destruct (z =? 0)%Z; reflexivity. }
  split; [|split; [exact Hz|]].
  - intros table cols fs ob asc rnd. apply (Hz table cols fs ob asc rnd 1%Z).
  - intros query cols fs ob asc rnd. rewrite QueryFacts.add_options_suffix.
    unfold Query.options_suffix; simpl.
    destruct rnd, ob as [[|c s]|], asc;
      rewrite ?QueryFacts.append_empty_l, ?QueryFacts.append_empty_r; reflexivity.
Qed.

(** ** The claims about the connection manager *)

Import Pg PgFacts.

(** C1.  Against a server that refuses every connection, [connect]
    (with [reconnect] on, the counter starting at 0) calls
    [psycopg2.connect] exactly [LIMIT_RETRIES + 1] = 6 times, prints the
    counters 1 to 5, one per retry, sleeps 5 seconds before each retry,
    and raises the error of the last attempt.  Against a server that
    accepts connections and fails every execution of the query,
    [execute] sends the same query exactly 6 times, prints the counters
    1 to 5, sleeps 1 second before each retry, and raises the error of
    the last attempt. *)
Theorem retry_bound_is_limit_plus_one :
  Pg.LIMIT_RETRIES + 1 = 6
  /\ (forall (d : Pg.Driver) (s : Pg.State),
        Pg._connection (Pg.self s) = None ->
        Pg.reconnect (Pg.self s) = true ->
        Pg.refuses_all d ->
        exists e,
          fst (Pg.connect d 0 s) = Pg.Raises e
          /\ Pg.connect_outcome d (Pg.connect_calls (Pg.world s) + Pg.LIMIT_RETRIES)
             = Pg.ConnectFails e
          /\ Pg.connects (Pg.since s (snd (Pg.connect d 0 s))) = Pg.LIMIT_RETRIES + 1
          /\ Pg.retries (Pg.since s (snd (Pg.connect d 0 s))) = [1; 2; 3; 4; 5]
          /\ Pg.sleeps (Pg.since s (snd (Pg.connect d 0 s))) = [5; 5; 5; 5; 5])
  /\ (forall (d : Pg.Driver) (query : string) (is_one : bool) (s : Pg.State) (cur : nat),
        Pg.has_open_cursor s cur ->
        Pg.fails_all d query ->
        Pg.accepts_all d ->
        exists e,
          fst (Pg.execute d query 0 is_one s) = Pg.Raises e
          /\ Pg.execute_outcome d (Pg.execute_calls (Pg.world s) + Pg.LIMIT_RETRIES) query
             = Pg.ExecuteFails e
          /\ Pg.statements (Pg.since s (snd (Pg.execute d query 0 is_one s)))
             = repeat query (Pg.LIMIT_RETRIES + 1)
          /\ Pg.retries (Pg.since s (snd (Pg.execute d query 0 is_one s))) = [1; 2; 3; 4; 5]
          /\ Pg.sleeps (Pg.since s (snd (Pg.execute d query 0 is_one s))) = [1; 1; 1; 1; 1]).
Proof.
  split; [reflexivity|]. split.
  - intros d s Hc Hr Hall.
    destruct (PgFacts.connect_rec_exhausts d Pg.LIMIT_RETRIES (S Pg.LIMIT_RETRIES) 0 s)
      as (e & s' & delta & Hrun & Hlast & _ & _ & _ & Ht & Hk & Hrs & Hsl);
      try assumption; try reflexivity; try lia.
    exists e. unfold Pg.connect. change (Pg.LIMIT_RETRIES - 0) with Pg.LIMIT_RETRIES.
    rewrite Hrun. cbn [fst snd].
    rewrite (PgFacts.since_app _ _ _ Ht), Hk, Hrs, Hsl.
    repeat split; try assumption; reflexivity.
  - intros d query is_one s cur Hcur Hall Hup.
    destruct (PgFacts.execute_rec_exhausts d query Pg.LIMIT_RETRIES
                (S Pg.LIMIT_RETRIES) 0 is_one s cur)
      as (e & s' & delta & Hrun & Hlast & _ & Ht & Hq & Hrs & Hsl & _);
      try assumption; try reflexivity; try lia.
    exists e. unfold Pg.execute. change (Pg.LIMIT_RETRIES - 0) with Pg.LIMIT_RETRIES.
    rewrite Hrun. cbn [fst snd].
    rewrite (PgFacts.since_app _ _ _ Ht), Hq, Hrs, Hsl.
    repeat split; try assumption; reflexivity.
Qed.

Lemma retry_bound_is_limit_plus_one_witness :
  (exists e,
      fst (Pg.connect Servers.unreachable 0 Pg.new_state) = Pg.Raises e
      /\ Pg.connect_outcome Servers.unreachable
           (Pg.connect_calls (Pg.world Pg.new_state) + Pg.LIMIT_RETRIES)
         = Pg.ConnectFails e
      /\ Pg.connects (Pg.since Pg.new_state (snd (Pg.connect Servers.unreachable 0 Pg.new_state)))
         = Pg.LIMIT_RETRIES + 1
      /\ Pg.retries (Pg.since Pg.new_state (snd (Pg.connect Servers.unreachable 0 Pg.new_state)))
         = [1; 2; 3; 4; 5]
      /\ Pg.sleeps (Pg.since Pg.new_state (snd (Pg.connect Servers.unreachable 0 Pg.new_state)))
         = [5; 5; 5; 5; 5])
  /\ (exists e,
        fst (Pg.execute Servers.dropping "SELECT 1" 0 false (Servers.started Servers.dropping))
        = Pg.Raises e
        /\ Pg.execute_outcome Servers.dropping
             (Pg.execute_calls (Pg.world (Servers.started Servers.dropping)) + Pg.LIMIT_RETRIES)
             "SELECT 1"
           = Pg.ExecuteFails e
        /\ Pg.statements (Pg.since (Servers.started Servers.dropping)
                            (snd (Pg.execute Servers.dropping "SELECT 1" 0 false
                                    (Servers.started Servers.dropping))))
           = repeat "SELECT 1" (Pg.LIMIT_RETRIES + 1)
        /\ Pg.retries (Pg.since (Servers.started Servers.dropping)
                         (snd (Pg.execute Servers.dropping "SELECT 1" 0 false
                                 (Servers.started Servers.dropping))))
           = [1; 2; 3; 4; 5]
        /\ Pg.sleeps (Pg.since (Servers.started Servers.dropping)
                        (snd (Pg.execute Servers.dropping "SELECT 1" 0 false
                                (Servers.started Servers.dropping))))
           = [1; 1; 1; 1; 1]).
Proof.
  split.
  - apply (proj1 (proj2 retry_bound_is_limit_plus_one) Servers.unreachable Pg.new_state).
    + reflexivity.
    + reflexivity.
    + intros n. eexists. reflexivity.
  - apply (proj2 (proj2 retry_bound_is_limit_plus_one) Servers.dropping "SELECT 1" false
             (Servers.started Servers.dropping) 0).
    + split; vm_compute; reflexivity.
    + intros n. eexists. split; reflexivity.
    + intros n. reflexivity.
Defined.

(** C2.  When the first execution of the query fails with a database
    error and the second one, after the reset, succeeds with [rows],
    [execute] does not return them: it returns [None] when [is_one] is
    true and the empty list otherwise.  The inner call fetched all the
    rows, with [is_one] left at its default, and its value is dropped. *)
Theorem execute_after_retry_returns_no_rows
    (d : Pg.Driver) (query : string) (is_one : bool) (s : Pg.State) (cur : nat)
    (e : Pg.Exn) (rows : list Pg.Row) :
  Pg.has_open_cursor s cur ->
  Pg.execute_outcome d (Pg.execute_calls (Pg.world s)) query = Pg.ExecuteFails e ->
  Pg.is_DatabaseError e = true ->
  Pg.connect_outcome d (Pg.connect_calls (Pg.world s)) = Pg.ConnectOk ->
  Pg.execute_outcome d (S (Pg.execute_calls (Pg.world s))) query = Pg.ExecuteOk rows ->
  fst (Pg.execute d query 0 is_one s)
  = Pg.Returns (if is_one then Pg.One None else Pg.All []).
Proof.
  intros Hcur Hout He Hup Hok. unfold execute.
  rename query into q.
  change (LIMIT_RETRIES - 0) with 5.
  rewrite (execute_rec_retry d _ _ _ _ _ _ _ Hcur Hout He) by (unfold LIMIT_RETRIES; lia).
  set (s1 := on_world _ (sent q cur None s)).
  destruct (reset_run d s1 Hup)
    as (s2 & cur2 & dr & Hreset & Hcur2 & _ & _ & _ & He2 & _).
  assert (Hout2 : execute_outcome d (execute_calls (world s2)) q = ExecuteOk rows)
    by (rewrite He2; exact Hok).
  pose proof (execute_sends d 4 q (0 + 1) false s2 cur2 rows Hcur2 Hout2)
    as Hinner.
  destruct Hcur2 as [Hc2 Ho2].
  destruct (sent_open q cur2 (Some rows) s2 Ho2) as [Ho3 Hp3].
  set (s3 := sent q cur2 (Some rows) s2) in *.
  assert (Hself3 : self_cursor s3 = (Returns cur2, s3)).
  { unfold self_cursor. run. subst s3. cbn [sent on_world self]. rewrite Hc2. reflexivity. }
  cbv beta iota in Hinner.
  rewrite (bind_returns _ _ _ _ _ Hself3),
    (bind_returns _ _ _ _ _ (fetchall_run _ _ _ Ho3 Hp3)) in Hinner.
  cbv [mret M_ret] in Hinner.
  set (s4 := on_world _ s3) in Hinner.
  assert (Ho4 : closed (world s4) cur2 = false)
    by (subst s4; cbn [on_world world]; now rewrite closed_set_rows).
  assert (Hp4 : pending (world s4) cur2 = Some [])
    by (subst s4; cbn [on_world world]; now apply pending_set_rows).
  assert (Hself4 : self_cursor s4 = (Returns cur2, s4)).
  { unfold self_cursor. run. subst s4 s3. cbn [sent on_world self]. rewrite Hc2. reflexivity. }
  assert (Hhandler :
    (reset d ≫= fun _ => execute_rec d 5 q (0 + 1) false ≫= fun _ => mret tt) s1
    = (Returns tt, s4)).
  { rewrite (bind_returns _ _ _ _ _ Hreset), (bind_returns _ _ _ _ _ Hinner). reflexivity. }
  rewrite (bind_returns _ _ _ _ _ Hhandler).
  destruct is_one; rewrite (bind_returns _ _ _ _ _ Hself4).
  - pose proof (fetchone_run _ _ _ Ho4 Hp4) as H1.
    cbv [mbind M_bind mret M_ret].
    destruct (cursor_fetchone cur2 s4) as [[r|e'|] s']; cbn [fst head] in *; congruence.
  - rewrite (bind_returns _ _ _ _ _ (fetchall_run _ _ _ Ho4 Hp4)). reflexivity.
Qed.

Lemma execute_after_retry_returns_no_rows_witness :
  fst (Pg.execute (Servers.flaky 0 1 [Servers.row1; Servers.row2]) "SELECT * FROM t" 0 false
         (Servers.started (Servers.flaky 0 1 [Servers.row1; Servers.row2])))
  = Pg.Returns (Pg.All [])
  /\ fst (Pg.execute (Servers.flaky 0 1 [Servers.row1; Servers.row2]) "SELECT * FROM t" 0 true
            (Servers.started (Servers.flaky 0 1 [Servers.row1; Servers.row2])))
     = Pg.Returns (Pg.One None).
Proof.
  split.
  - apply (execute_after_retry_returns_no_rows
             (Servers.flaky 0 1 [Servers.row1; Servers.row2]) "SELECT * FROM t" false
             (Servers.started (Servers.flaky 0 1 [Servers.row1; Servers.row2])) 0
             (Pg.OperationalError "server closed the connection unexpectedly")
             [Servers.row1; Servers.row2]).
    + split; vm_compute; reflexivity.
    + reflexivity.
    + reflexivity.
    + reflexivity.
    + reflexivity.
  - apply (execute_after_retry_returns_no_rows
             (Servers.flaky 0 1 [Servers.row1; Servers.row2]) "SELECT * FROM t" true
             (Servers.started (Servers.flaky 0 1 [Servers.row1; Servers.row2])) 0
             (Pg.OperationalError "server closed the connection unexpectedly")
             [Servers.row1; Servers.row2]).
    + split; vm_compute; reflexivity.
    + reflexivity.
    + reflexivity.
    + reflexivity.
    + reflexivity.
Defined.

(** C6.  [close] never raises and leaves [_connection] and [_cursor]
    unset; called again it does the same, and changes nothing more. *)
Theorem close_is_idempotent (s : Pg.State) :
  fst (Pg.close s) = Pg.Returns tt
  /\ Pg._connection (Pg.self (snd (Pg.close s))) = None
  /\ Pg._cursor (Pg.self (snd (Pg.close s))) = None
  /\ fst (Pg.close (snd (Pg.close s))) = Pg.Returns tt
  /\ Pg._connection (Pg.self (snd (Pg.close (snd (Pg.close s))))) = None
  /\ Pg._cursor (Pg.self (snd (Pg.close (snd (Pg.close s))))) = None
  /\ snd (Pg.close (snd (Pg.close s))) = snd (Pg.close s).
Proof.
  destruct (PgFacts.close_run s) as (s1 & d1 & H1 & Hc1 & Hk1 & _).
  rewrite H1. cbn [fst snd].
  assert (H2 : Pg.close s1 = (Pg.Returns tt, s1)).
  { destruct s1 as [[conn cur rc lq] w]. cbn in Hc1, Hk1. subst conn cur. reflexivity. }
  rewrite H2. cbn [fst snd]. repeat split; assumption.
Qed.

(** C7.  [connect] on a manager that holds a connection returns at
    once and changes nothing: no call of [psycopg2.connect] is made.
    A new manager has no open connection, and every method, started
    with no open connection but the one in [_connection], ends so: at
    most one connection is open at any time. *)
Theorem connect_keeps_a_single_connection (d : Pg.Driver) :
  (forall (retry_counter : nat) (s : Pg.State),
      is_Some (Pg._connection (Pg.self s)) ->
      Pg.connect d retry_counter s = (Pg.Returns None, s))
  /\ Pg.at_most_one_live Pg.new_state
  /\ Pg.at_most_one_live (snd (Pg.init d Pg.new_state))
  /\ (forall retry_counter : nat, Pg.keeps_one_live (Pg.connect d retry_counter))
  /\ Pg.keeps_one_live (Pg.cursor d)
  /\ (forall (query : string) (retry_counter : nat) (is_one : bool),
        Pg.keeps_one_live (Pg.execute d query retry_counter is_one))
  /\ Pg.keeps_one_live (Pg.reset d)
  /\ Pg.keeps_one_live Pg.close
  /\ (forall (table : string) (args : Query.SelectArgs),
        Pg.keeps_one_live (Pg.select d table args))
  /\ (forall query : string, Pg.keeps_one_live (Pg.batch_execute d query)).
Proof.
  split; [intros rc s H; now apply PgFacts.connect_rec_connected|].
  split; [unfold Pg.at_most_one_live; reflexivity|].
  split; [apply PgFacts.init_one_live|].
  split; [intros rc; apply PgFacts.connect_keeps_one_live|].
  split; [apply PgFacts.cursor_keeps_one_live|].
  split; [intros q rc is_one; apply PgFacts.execute_keeps_one_live|].
  split; [apply PgFacts.reset_keeps_one_live|].
  split; [apply PgFacts.close_keeps_one_live|].
  split; [intros table args; apply PgFacts.select_keeps_one_live|].
  intros q. apply PgFacts.batch_execute_keeps_one_live.
Qed.

Lemma connect_keeps_a_single_connection_witness :
  Pg.connect (Servers.steady []) 0 (Servers.started (Servers.steady []))
  = (Pg.Returns None, Servers.started (Servers.steady []))
  /\ Pg.at_most_one_live
       (snd (Pg.reset (Servers.steady []) (Servers.started (Servers.steady []))))
  /\ size (Pg.open_conns
             (Pg.world (snd (Pg.reset (Servers.steady [])
                               (Servers.started (Servers.steady []))))))
     <= 1.
Proof.
  pose proof (connect_keeps_a_single_connection (Servers.steady [])) as H.
  split.
  - apply (proj1 H 0 (Servers.started (Servers.steady []))).
    exists 0. reflexivity.
  - destruct H as (_ & _ & Hinit & _ & _ & _ & Hreset & _).
    destruct (Hreset (Servers.started (Servers.steady [])) Hinit) as (H1 & H2 & _).
    split; assumption.
Defined.

(** C8.  When the manager holds a cursor that is open, [cursor()]
    returns [None], not that cursor: the [return] of line 54 is inside
    the [if] that makes a new cursor.  Nothing is changed. *)
Theorem cursor_returns_none_when_open (d : Pg.Driver) (s : Pg.State) (cur : nat) :
  Pg.has_open_cursor s cur ->
  Pg.cursor d s = (Pg.Returns None, s).
Proof.
  intros [Hc Ho]. unfold cursor. run.
  rewrite Hc, Ho. reflexivity.
Qed.

Lemma cursor_returns_none_when_open_witness :
  Pg._cursor (Pg.self (Servers.started (Servers.steady []))) = Some 0
  /\ Pg.closed (Pg.world (Servers.started (Servers.steady []))) 0 = false
  /\ Pg.cursor (Servers.steady []) (Servers.started (Servers.steady []))
     = (Pg.Returns None, Servers.started (Servers.steady [])).
Proof.
  split; [reflexivity|]. split; [vm_compute; reflexivity|].
  apply (cursor_returns_none_when_open (Servers.steady [])
           (Servers.started (Servers.steady [])) 0).
  split; vm_compute; reflexivity.
Defined.

(** C9.  On a manager with no connection, [connect()] returns the new
    connection when the first attempt succeeds.  When the first [k]
    attempts fail with an [OperationalError], [1 <= k <= LIMIT_RETRIES],
    and the next one succeeds, the connection is stored in
    [_connection] and [connect()] returns [None]. *)
Theorem connect_returns_connection_only_at_first_attempt (d : Pg.Driver) (s : Pg.State) :
  Pg._connection (Pg.self s) = None ->
  (Pg.connect_outcome d (Pg.connect_calls (Pg.world s)) = Pg.ConnectOk ->
   fst (Pg.connect d 0 s) = Pg.Returns (Some (Pg.connect_calls (Pg.world s)))
   /\ Pg._connection (Pg.self (snd (Pg.connect d 0 s)))
      = Some (Pg.connect_calls (Pg.world s)))
  /\ (forall k : nat,
        1 <= k <= Pg.LIMIT_RETRIES ->
        Pg.reconnect (Pg.self s) = true ->
        (forall i, i < k ->
           exists msg, Pg.connect_outcome d (Pg.connect_calls (Pg.world s) + i)
                       = Pg.ConnectFails (Pg.OperationalError msg)) ->
        Pg.connect_outcome d (Pg.connect_calls (Pg.world s) + k) = Pg.ConnectOk ->
        fst (Pg.connect d 0 s) = Pg.Returns None
        /\ Pg._connection (Pg.self (snd (Pg.connect d 0 s)))
           = Some (Pg.connect_calls (Pg.world s) + k)
        /\ Pg.connect_calls (Pg.world s) + k
           ∈ Pg.open_conns (Pg.world (snd (Pg.connect d 0 s)))).
Proof.
  intros Hc. split.
  - intros Hok. unfold Pg.connect.
    rewrite PgFacts.connect_rec_ok by assumption. split; reflexivity.
  - intros k Hk Hr Hfail Hok.
    destruct (PgFacts.connect_rec_after_failures d k (S (Pg.LIMIT_RETRIES - 0)) 0 s)
      as (s' & Hrun & Hconn & _ & Hop & _); try assumption; try lia.
    unfold Pg.connect. rewrite Hrun. cbn [fst snd].
    destruct k as [|k]; [lia|].
    repeat split; try assumption.
    rewrite Hop. apply elem_of_union_l, elem_of_singleton. reflexivity.
Qed.

Lemma connect_returns_connection_only_at_first_attempt_witness :
  fst (Pg.connect (Servers.flaky 2 0 []) 0 Pg.new_state) = Pg.Returns None
  /\ Pg._connection (Pg.self (snd (Pg.connect (Servers.flaky 2 0 []) 0 Pg.new_state)))
     = Some (Pg.connect_calls (Pg.world Pg.new_state) + 2)
  /\ Pg.connect_calls (Pg.world Pg.new_state) + 2
     ∈ Pg.open_conns (Pg.world (snd (Pg.connect (Servers.flaky 2 0 []) 0 Pg.new_state))).
Proof.
  apply (proj2 (connect_returns_connection_only_at_first_attempt
                  (Servers.flaky 2 0 []) Pg.new_state eq_refl) 2).
  - unfold Pg.LIMIT_RETRIES. lia.
  - reflexivity.
  - intros i Hi. eexists.
    destruct i as [|[|i]]; [reflexivity | reflexivity | lia].
  - reflexivity.
Defined.

(** ** More properties of the connection manager *)

Module PgMoreFacts.
Import Pg PgFacts.

Section Facts.
Variable d : Driver.

Lemma self_cursor_run s cur :
  _cursor (self s) = Some cur -> self_cursor s = (Returns cur, s).
Proof. intros Hc. unfold self_cursor. run. rewrite Hc. reflexivity. Qed.

Lemma fetchone_state cur s rows :
  closed (world s) cur = false -> pending (world s) cur = Some rows ->
  cursor_fetchone cur s
  = (Returns (head rows),
     match rows with
     | [] => s
     | _ :: rest => on_world (alter_cursor (set_rows (Some rest)) cur) s
     end).
Proof.
  intros Hc Hp. unfold cursor_fetchone.
  rewrite (bind_returns _ _ _ _ _ (pending_rows_run _ _ _ Hc Hp)).
  destruct rows; reflexivity.
Qed.

(** What [execute] leaves when the statement succeeds at once. *)
Lemma execute_rec_ok fuel q rc is_one s cur rows :
  has_open_cursor s cur ->
  execute_outcome d (execute_calls (world s)) q = ExecuteOk rows ->
  exists s',
    execute_rec d (S fuel) q rc is_one s
    = (Returns (if is_one then One (head rows) else All rows), s')
    /\ self s' = self s
    /\ trace (world s') = trace (world s) ++ [ServerExecute q]
    /\ open_conns (world s') = open_conns (world s)
    /\ connect_calls (world s') = connect_calls (world s)
    /\ execute_calls (world s') = S (execute_calls (world s))
    /\ closed (world s') cur = false
    /\ pending (world s') cur = Some (if is_one then tail rows else []).
Proof.
  intros Hcur Hout. rewrite (execute_sends d _ _ _ _ _ _ _ Hcur Hout).
  destruct Hcur as [Hc Ho].
  destruct (sent_open q cur (Some rows) s Ho) as [Ho' Hp'].
  assert (Hself : self_cursor (sent q cur (Some rows) s)
                  = (Returns cur, sent q cur (Some rows) s))
    by (apply self_cursor_run; exact Hc).
  destruct is_one; rewrite (bind_returns _ _ _ _ _ Hself).
  - rewrite (bind_returns _ _ _ _ _ (fetchone_state _ _ _ Ho' Hp')).
    eexists. split; [reflexivity|].
    destruct rows as [|row rest]; cbn [tail].
    + repeat split; try reflexivity; assumption.
    + cbn [on_world self world]. rewrite closed_set_rows.
      repeat split; try reflexivity; try assumption.
      now apply pending_set_rows.
  - rewrite (bind_returns _ _ _ _ _ (fetchall_run _ _ _ Ho' Hp')).
    eexists. split; [reflexivity|].
    cbn [on_world self world]. rewrite closed_set_rows.
    repeat split; try reflexivity; try assumption.
    now apply pending_set_rows.
Qed.

(** What [reset] leaves when the server accepts the connection. *)
Lemma reset_state s :
  connect_outcome d (connect_calls (world s)) = ConnectOk ->
  exists s',
    reset d s = (Returns tt, s')
    /\ _connection (self s') = Some (connect_calls (world s))
    /\ has_open_cursor s' (length (cursors (world s)))
    /\ reconnect (self s') = reconnect (self s)
    /\ last_query (self s') = last_query (self s)
    /\ open_conns (world s')
       = {[connect_calls (world s)]} ∪ (open_conns (world s) ∖ held (self s))
    /\ connect_calls (world s') = S (connect_calls (world s))
    /\ execute_calls (world s') = execute_calls (world s)
    /\ connects (since s s') = 1
    /\ statements (since s s') = [].
Proof.
  intros Hok. destruct s as [[conn cur rc lq] w]. cbn [self world connect_calls] in *.
  assert (Hclose : exists w1 delta,
             close {| self := {| _connection := conn; _cursor := cur;
                                 reconnect := rc; last_query := lq |}; world := w |}
             = (Returns tt, {| self := {| _connection := None; _cursor := None;
                                        reconnect := rc; last_query := lq |};
                               world := w1 |})
             /\ connect_calls w1 = connect_calls w
             /\ execute_calls w1 = execute_calls w
             /\ length (cursors w1) = length (cursors w)
             /\ open_conns w1
                = open_conns w ∖ held {| _connection := conn; _cursor := cur;
                                         reconnect := rc; last_query := lq |}
             /\ trace w1 = trace w ++ delta
             /\ connects delta = 0 /\ statements delta = []).
  { unfold close, held. fields.
    destruct conn as [c|]; [destruct cur as [k|]|]; run.
    - eexists; exists [SayClosed]. split; [reflexivity|]. fields.
      rewrite length_alter. repeat split; reflexivity.
    - eexists; exists [SayClosed]. split; [reflexivity|]. fields.
      repeat split; reflexivity.
    - eexists; exists []. split; [reflexivity|]. fields.
      repeat split; try reflexivity;
        [now rewrite difference_empty_L | now rewrite app_nil_r]. }
  destruct Hclose as (w1 & delta & Hclose & Hn1 & He1 & Hl1 & Ho1 & Ht1 & Hk1 & Hq1).
  set (s1 := {| self := _; world := w1 |}) in Hclose.
  assert (Hconn : connect d 0 s1
                  = (Returns (Some (connect_calls w1)),
                     on_self (with_connection (Some (connect_calls w1)))
                       (on_world (add_connection (connect_calls w1)) (attempted s1))))
    by (apply connect_rec_ok; [reflexivity | cbn [s1 world]; now rewrite Hn1]).
  set (s2 := on_self _ (on_world _ (attempted s1))) in Hconn.
  assert (Hcur : cursor d s2
                 = (Returns (Some (length (cursors (world s2)))),
                    on_self (with_cursor (Some (length (cursors (world s2)))))
                      (on_world (add_cursor (fresh_cursor (connect_calls w1) false)) s2))).
  { apply cursor_opened; subst s2 s1; fields.
    - exact I.
    - reflexivity.
    - apply elem_of_union_l, elem_of_singleton. reflexivity. }
  set (s3 := on_self _ (on_world _ s2)) in Hcur.
  exists s3. split.
  { unfold reset.
    rewrite (bind_returns _ _ _ _ _ Hclose), (bind_returns _ _ _ _ _ Hconn),
      (bind_returns _ _ _ _ _ Hcur). reflexivity. }
  assert (Hlen : length (cursors (world s2)) = length (cursors w))
    by (subst s2 s1; fields; exact Hl1).
  split; [subst s3 s2 s1; fields; now rewrite Hn1|].
  split.
  { rewrite <- Hlen. split; [reflexivity|]. subst s3. cbn [on_self on_world world].
    apply fresh_cursor_open. subst s2 s1; fields.
    apply elem_of_union_l, elem_of_singleton. reflexivity. }
  assert (Ht : trace (world s3) = trace w ++ (delta ++ [SayConnecting; ServerConnect]))
    by (subst s3 s2 s1; fields; rewrite Ht1; now rewrite <- !app_assoc).
  rewrite (since_app (Build_State _ w) s3 _ Ht), connects_app, statements_app, Hk1, Hq1.
  subst s3 s2 s1; fields. rewrite Hn1, He1, Ho1.
  repeat split; reflexivity.
Qed.

(** [connect] against a server that comes up after [k] refusals: the
    driver's side. *)
Lemma connect_rec_comes_up k : forall fuel rc s,
  rc + k <= LIMIT_RETRIES -> k < fuel ->
  _connection (self s) = None -> reconnect (self s) = true ->
  (forall i, i < k ->
     exists msg, connect_outcome d (connect_calls (world s) + i)
                 = ConnectFails (OperationalError msg)) ->
  connect_outcome d (connect_calls (world s) + k) = ConnectOk ->
  exists v s' delta,
    connect_rec d fuel rc s = (Returns v, s')
    /\ self s' = with_connection (Some (connect_calls (world s) + k)) (self s)
    /\ open_conns (world s') = {[connect_calls (world s) + k]} ∪ open_conns (world s)
    /\ cursors (world s') = cursors (world s)
    /\ connect_calls (world s') = connect_calls (world s) + S k
    /\ execute_calls (world s') = execute_calls (world s)
    /\ trace (world s') = trace (world s) ++ delta
    /\ connects delta = S k
    /\ sleeps delta = repeat 5 k
    /\ retries delta = seq (rc + 1) k
    /\ statements delta = [].
Proof.
  induction k as [|k IH]; intros fuel rc s Hrc Hf Hc Hr Hfail Hok;
    (destruct fuel as [|fuel]; [lia|]).
  - rewrite Nat.add_0_r in *.
    eexists; eexists; exists [SayConnecting; ServerConnect].
    split; [apply connect_rec_ok; assumption|].
    fields. repeat split; try reflexivity; try lia.
    now rewrite <- app_assoc.
  - destruct (Hfail 0) as [msg Ho]; [lia|]. rewrite Nat.add_0_r in Ho.
    rewrite (connect_rec_retry d _ _ _ _ Hc Ho) by (trivial; lia).
    set (s1 := on_world _ (attempted s)).
    destruct (IH fuel (rc + 1) s1)
      as (v & s' & delta & Hrun & Hself & Hop & Hcs & Hn & He & Ht & Hk & Hsl & Hrs & Hq);
      try assumption; try lia.
    + intros i Hi. subst s1; fields.
      destruct (Hfail (S i)) as [m Hm]; [lia|]. exists m.
      rewrite <- Hm. f_equal. lia.
    + subst s1; fields. rewrite <- Hok. f_equal. lia.
    + exists None, s',
        ([SayConnecting; ServerConnect; SayReconnecting (OperationalError msg) (rc + 1);
          Sleep 5] ++ delta).
      rewrite (bind_returns _ _ _ _ _ Hrun).
      subst s1; fields.
      replace (connect_calls (world s) + S k) with (S (connect_calls (world s)) + k) by lia.
      rewrite connects_app, sleeps_app, retries_app, statements_app, Hk, Hsl, Hrs, Hq.
      repeat split; try assumption; try lia.
      * rewrite Ht. now rewrite <- !app_assoc.
      * replace (rc + 1 + 1) with (S (rc + 1)) by lia. reflexivity.
Qed.

(** [cursor] on a manager with no connection. *)
Lemma cursor_connects s s1 v :
  match _cursor (self s) with
  | None => True
  | Some cur => closed (world s) cur = true
  end ->
  _connection (self s) = None ->
  connect d 0 s = (Returns v, s1) ->
  cursor d s = (self_connection ≫= fun c => connection_cursor c false ≫= fun cur =>
                set_cursor (Some cur) ≫= fun _ => mret (Some cur)) s1.
Proof.
  intros Hcur Hc Hconn. unfold cursor.
  cbv [mbind M_bind get_self get_world].
  assert (Hno : match _cursor (self s) with
                | Some cur => closed (world s) cur
                | None => true
                end = true)
    by (destruct (_cursor (self s)); auto).
  rewrite Hno, Hc.
  rewrite bool_decide_eq_false_2 by (intros [? ?]; discriminate).
  rewrite Hconn. reflexivity.
Qed.

Lemma cursor_raises_on_closed_connection s c :
  match _cursor (self s) with
  | None => True
  | Some cur => closed (world s) cur = true
  end ->
  _connection (self s) = Some c -> c ∉ open_conns (world s) ->
  cursor d s = (Raises (InterfaceError "connection already closed"), s).
Proof.
  intros Hcur Hc Hin. unfold cursor. run.
  assert (Hno : match _cursor (self s) with
                | Some cur => closed (world s) cur
                | None => true
                end = true)
    by (destruct (_cursor (self s)); auto).
  rewrite Hno.
  rewrite (bool_decide_eq_true_2 (is_Some (_connection (self s)))) by (rewrite Hc; eauto).
  rewrite Hc. unfold connection_cursor. run.
  rewrite bool_decide_eq_false_2 by exact Hin. reflexivity.
Qed.


Lemma cursor_execute_run cur q s :
  closed (world s) cur = false ->
  cursor_execute d cur q s
  = match execute_outcome d (execute_calls (world s)) q with
    | ExecuteOk rows => (Returns tt, sent q cur (Some rows) s)
    | ExecuteFails e => (Raises e, sent q cur None s)
    end.
Proof.
  intros Ho. unfold cursor_execute. run. rewrite Ho.
  cbn [log execute_calls].
  destruct (execute_outcome d (execute_calls (world s)) q); reflexivity.
Qed.

Lemma closed_mark_closed w cur : closed (alter_cursor mark_closed cur w) cur = true.
Proof.
  unfold closed. fields. rewrite list_lookup_alter_eq.
  destruct (cursors w !! cur); reflexivity.
Qed.

(** The state [batch_execute] starts its [with] block in. *)
Lemma batch_execute_opens q s c :
  _connection (self s) = Some c -> c ∈ open_conns (world s) ->
  batch_execute d q s
  = try_except
      (cursor_execute d (length (cursors (world s))) q ≫= fun _ =>
       cursor_fetchall (length (cursors (world s))) ≫= fun rows =>
       cursor_close (length (cursors (world s))) ≫= fun _ => mret rows)
      (fun error => cursor_close (length (cursors (world s))) ≫= fun _ => raise error)
      (on_world (add_cursor (fresh_cursor c true)) s).
Proof.
  intros Hc Hin. unfold batch_execute. run. rewrite Hc.
  unfold connection_cursor. run.
  rewrite (bool_decide_eq_true_2 (c ∈ open_conns (world s))) by exact Hin.
  reflexivity.
Qed.

End Facts.
End PgMoreFacts.

(** *** The settings are kept *)

Module SettingsFacts.
Import Pg PgFacts Settings.

Section Kept.
Variable d : Driver.
Variable r : bool.
Variable lq : option string.

Local Abbreviation kept := (respects (settings_are r lq)).

Lemma kept_world f : kept (modify_world f).
Proof. intros s Hs. split; [exact Hs | discriminate]. Qed.

Lemma kept_set_cursor c : kept (set_cursor c).
Proof. intros s Hs. split; [exact Hs | discriminate]. Qed.

Lemma kept_set_connection c : kept (set_connection c).
Proof. intros s Hs. split; [exact Hs | discriminate]. Qed.

#[local] Hint Resolve kept_world kept_set_cursor kept_set_connection : respects.
#[local] Hint Resolve respects_ret respects_raise respects_get_self respects_get_world
  : respects.

Ltac kept_step :=
  first
    [ solve [auto 1 with respects nocore]
    | simple apply respects_bind; [|intros ?]
    | simple apply respects_try; [|intros ?]
    | match goal with
      | |- Pg.respects _ (if ?b then _ else _) => destruct b
      | |- Pg.respects _ (match ?x with _ => _ end) => destruct x
      end ].

Ltac kept_auto :=
  unfold say, sleep, cursor_close, connection_close, self_cursor, self_connection;
  repeat kept_step.

Lemma kept_close : kept close.
Proof. unfold close. kept_auto. Qed.

Lemma kept_psycopg2_connect : kept (psycopg2_connect d).
Proof. unfold psycopg2_connect. kept_auto. Qed.

#[local] Hint Resolve kept_close kept_psycopg2_connect : respects.

Lemma kept_connect_rec fuel : forall rc,
  LIMIT_RETRIES - rc < fuel -> kept (connect_rec d fuel rc).
Proof.
  induction fuel as [|fuel IH]; intros rc Hf; [lia|].
  cbn [connect_rec].
  simple apply respects_bind; [auto with respects nocore|intros m].
  destruct (bool_decide (is_Some (_connection m))); [apply respects_ret|].
  apply respects_try; [kept_auto|].
  intros e. destruct (is_OperationalError e); [|apply respects_raise].
  simple apply respects_bind; [auto with respects nocore|intros m'].
  destruct (negb (reconnect m')); cbn [orb]; [apply respects_raise|].
  destruct (Nat.leb_spec LIMIT_RETRIES rc); [apply respects_raise|].
  kept_auto. apply IH. lia.
Qed.

Lemma kept_connect rc : kept (connect d rc).
Proof. apply kept_connect_rec. lia. Qed.

#[local] Hint Resolve kept_connect : respects.

Lemma kept_cursor : kept (cursor d).
Proof. unfold cursor, connection_cursor. kept_auto. Qed.

#[local] Hint Resolve kept_cursor : respects.

Lemma kept_reset : kept (reset d).
Proof. unfold reset. kept_auto. Qed.

Lemma kept_fetchone cur : kept (cursor_fetchone cur).
Proof. unfold cursor_fetchone, pending_rows. kept_auto. Qed.

Lemma kept_fetchall cur : kept (cursor_fetchall cur).
Proof. unfold cursor_fetchall, pending_rows. kept_auto. Qed.

Lemma kept_cursor_execute cur q : kept (cursor_execute d cur q).
Proof. unfold cursor_execute. kept_auto. Qed.

#[local] Hint Resolve kept_reset kept_fetchone kept_fetchall kept_cursor_execute : respects.

Lemma kept_execute_rec q fuel : forall rc is_one,
  LIMIT_RETRIES - rc < fuel -> kept (execute_rec d fuel q rc is_one).
Proof.
  induction fuel as [|fuel IH]; intros rc is_one Hf; [lia|].
  cbn [execute_rec]. unfold self_cursor, say, sleep.
  apply respects_bind.
  - apply respects_try.
    + kept_auto.
    + intros e. destruct (is_DatabaseError e); [|apply respects_raise].
      destruct (Nat.leb_spec LIMIT_RETRIES rc); [apply respects_raise|].
      kept_auto. apply IH. lia.
  - intros _. destruct is_one; kept_auto.
Qed.

Lemma kept_execute q rc is_one : kept (execute d q rc is_one).
Proof. apply kept_execute_rec. lia. Qed.

Lemma kept_batch_execute q : kept (batch_execute d q).
Proof. unfold batch_execute, connection_cursor. kept_auto. Qed.

End Kept.
End SettingsFacts.

(** ** More properties of the query builder *)

Module QueryMoreFacts.
Import Query QueryFacts QueryMore.

Lemma collect_filters_from (filters : dict (dict Value)) (acc : list string) (qf : string) :
  fold_left (fun st fc =>
               let all_filters := collect_conditions (fst fc) (snd fc) (fst st) in
               (all_filters, join " AND " all_filters))
            filters (acc, qf)
  = ((acc ++ all_conditions filters)%list,
     match filters with
     | [] => qf
     | _ => join " AND " (acc ++ all_conditions filters)%list
     end).
Proof.
  revert acc qf. induction filters as [|fc filters IH]; intros acc qf.
  - cbn. now rewrite app_nil_r.
  - cbn [fold_left fst snd]. rewrite IH, collect_conditions_app.
    cbn [all_conditions flat_map]. rewrite <- !app_assoc.
    destruct filters; [|reflexivity].
    cbn [flat_map]. now rewrite !app_nil_r.
Qed.

Lemma join_truthy (sep x : string) (l : list string) :
  str_truthy x = true -> str_truthy (join sep (x :: l)) = true.
Proof.
  intros Hx. unfold join. cbn [String.concat].
  destruct l; [exact Hx|].
  destruct x; [discriminate | reflexivity].
Qed.

End QueryMoreFacts.

(** ** Properties of the helpers of pyneed.utils *)

Module CommonFacts.
Import Common.


Lemma chunks_unfold {A : Type} (size : nat) (it : list A) :
  chunks size it
  = match take size it with
    | [] => []
    | chunk => chunk :: chunks size (drop size it)
    end.
Proof.
  rewrite chunks_equation_1.
  destruct (inspect (take size it)) as [[|x chunk] e]; cbn; now rewrite e.
Qed.






End CommonFacts.

Module IoFacts.
Import Io.

Lemma split_not_nil sep s : split sep s <> [].
Proof.
  destruct s as [|c rest]; cbn; [discriminate|].
  destruct (Ascii.eqb c sep); [discriminate|].
  destruct (split sep rest); discriminate.
Qed.

Lemma split_without sep s : has_char sep s = false -> split sep s = [s].
Proof.
  induction s as [|c rest IH]; cbn; [reflexivity|].
  destruct (Ascii.eqb c sep); cbn; [discriminate|].
  intros H. now rewrite IH.
Qed.

Lemma split_at_first sep prefix rest :
  has_char sep prefix = false ->
  split sep (prefix +:+ String sep rest) = prefix :: split sep rest.
Proof.
  induction prefix as [|c prefix IH]; cbn.
  - intros _. change (String.app "" (String sep rest)) with (String sep rest).
    cbn. now rewrite Ascii.eqb_refl.
  - destruct (Ascii.eqb c sep) eqn:Hc; cbn; [discriminate|].
    intros H. change (String.app (String c prefix) (String sep rest))
      with (String c (prefix +:+ String sep rest)).
    cbn. rewrite Hc, IH by exact H. reflexivity.
Qed.

Lemma concat_split sep s : String.concat (String sep EmptyString) (split sep s) = s.
Proof.
  induction s as [|c rest IH]; [reflexivity|].
  cbn [split]. pose proof (split_not_nil sep rest) as Hn.
  destruct (split sep rest) as [|p ps] eqn:Hs; [contradiction|].
  rewrite <- IH.
  destruct (Ascii.eqb_spec c sep) as [->|Hne]; [reflexivity|].
  destruct ps; reflexivity.
Qed.

End IoFacts.

(** ** Further properties of the connection manager, of the query
    builder and of the helpers *)

Import PgMoreFacts.

(** X1.  An error of [psycopg2.connect] that is not an
    [OperationalError], or any error when [reconnect] is off, is raised
    after that one attempt: no retry, no sleep, and the manager is as it
    was. *)
Theorem connect_does_not_retry_other_errors
    (d : Driver) (retry_counter : nat) (s : State) (e : Exn) :
  _connection (self s) = None ->
  connect_outcome d (connect_calls (world s)) = ConnectFails e ->
  is_OperationalError e = false \/ reconnect (self s) = false ->
  fst (connect d retry_counter s) = Raises e
  /\ self (snd (connect d retry_counter s)) = self s
  /\ open_conns (world (snd (connect d retry_counter s))) = open_conns (world s)
  /\ since s (snd (connect d retry_counter s)) = [SayConnecting; ServerConnect].
Proof.
  intros Hc Ho H. unfold connect.
  rewrite (connect_rec_raise d _ _ _ e Hc Ho) by tauto.
  cbn [fst snd]. repeat split.
  apply since_app. fields. now rewrite <- app_assoc.
Qed.

Lemma connect_does_not_retry_other_errors_witness :
  fst (connect Faults.misconfigured 0 new_state)
  = Raises (AttributeError "'PgManager' object has no attribute 'affinity_db_config'")
  /\ self (snd (connect Faults.misconfigured 0 new_state)) = self new_state
  /\ open_conns (world (snd (connect Faults.misconfigured 0 new_state))) = open_conns (world new_state)
  /\ since new_state (snd (connect Faults.misconfigured 0 new_state)) = [SayConnecting; ServerConnect].
Proof.
  apply (connect_does_not_retry_other_errors Faults.misconfigured 0 new_state).
  - reflexivity.
  - reflexivity.
  - left. reflexivity.
Defined.

(** X2.  An error of [cursor.execute] that is neither a
    [DatabaseError] nor an [OperationalError] is raised after that one
    attempt: the statement is sent once, there is no reset, and the
    manager keeps its connection. *)
Theorem execute_does_not_retry_other_errors
    (d : Driver) (query : string) (retry_counter : nat) (is_one : bool)
    (s : State) (cur : nat) (e : Exn) :
  has_open_cursor s cur ->
  execute_outcome d (execute_calls (world s)) query = ExecuteFails e ->
  is_DatabaseError e = false ->
  fst (execute d query retry_counter is_one s) = Raises e
  /\ self (snd (execute d query retry_counter is_one s)) = self s
  /\ open_conns (world (snd (execute d query retry_counter is_one s))) = open_conns (world s)
  /\ connect_calls (world (snd (execute d query retry_counter is_one s)))
     = connect_calls (world s)
  /\ since s (snd (execute d query retry_counter is_one s)) = [ServerExecute query].
Proof.
  intros Hcur Ho He. unfold execute.
  rewrite (execute_rec_raise d _ _ _ _ _ _ e Hcur Ho) by tauto.
  cbn [fst snd]. repeat split.
  apply since_app. reflexivity.
Qed.

Lemma execute_does_not_retry_other_errors_witness :
  fst (execute Faults.confused "SELECT %s" 0 false (Servers.started Faults.confused))
  = Raises (OtherException "not all arguments converted")
  /\ self (snd (execute Faults.confused "SELECT %s" 0 false (Servers.started Faults.confused)))
     = self (Servers.started Faults.confused)
  /\ open_conns (world (snd (execute Faults.confused "SELECT %s" 0 false (Servers.started Faults.confused))))
     = open_conns (world (Servers.started Faults.confused))
  /\ connect_calls (world (snd (execute Faults.confused "SELECT %s" 0 false (Servers.started Faults.confused))))
     = connect_calls (world (Servers.started Faults.confused))
  /\ since (Servers.started Faults.confused)
       (snd (execute Faults.confused "SELECT %s" 0 false (Servers.started Faults.confused)))
     = [ServerExecute "SELECT %s"].
Proof.
  apply (execute_does_not_retry_other_errors Faults.confused "SELECT %s" 0 false
           (Servers.started Faults.confused) 0).
  - split; vm_compute; reflexivity.
  - reflexivity.
  - reflexivity.
Defined.

(** X3.  Without an open cursor [execute] raises at once, sends
    nothing and changes nothing: an [AttributeError] when [_cursor] is
    unset, the driver's [InterfaceError] when the cursor is closed.  It
    does not open a cursor, and it does not retry. *)
Theorem execute_without_open_cursor_raises_at_once
    (d : Driver) (query : string) (retry_counter : nat) (is_one : bool) (s : State) :
  (forall cur, ~ has_open_cursor s cur) ->
  execute d query retry_counter is_one s
  = (Raises (match _cursor (self s) with
             | None => AttributeError "'NoneType' object has no attribute"
             | Some _ => InterfaceError "cursor already closed"
             end), s).
Proof.
  intros Hno. unfold execute. cbn [execute_rec]. run.
  destruct (_cursor (self s)) as [cur|] eqn:Hc; [|reflexivity].
  unfold cursor_execute. run.
  destruct (closed (world s) cur) eqn:Ho; [reflexivity|].
  exfalso. apply (Hno cur). split; assumption.
Qed.

Lemma execute_without_open_cursor_raises_at_once_witness :
  execute (Servers.steady []) "SELECT 1" 0 false (Faults.dropped (Servers.steady []))
  = (Raises (InterfaceError "cursor already closed"), Faults.dropped (Servers.steady [])).
Proof.
  apply (execute_without_open_cursor_raises_at_once (Servers.steady []) "SELECT 1" 0 false
           (Faults.dropped (Servers.steady []))).
  intros cur [Hc Ho]. injection Hc as <-. vm_compute in Ho. discriminate Ho.
Defined.

(** X4.  After [close], [execute] raises an [AttributeError] and
    sends nothing: the manager does not reconnect by itself. *)
Theorem execute_after_close_raises
    (d : Driver) (query : string) (retry_counter : nat) (is_one : bool) (s : State) :
  execute d query retry_counter is_one (snd (close s))
  = (Raises (AttributeError "'NoneType' object has no attribute"), snd (close s)).
Proof.
  destruct (close_run s) as (s' & delta & -> & _ & Hk & _). cbn [snd].
  unfold execute. now apply execute_rec_no_cursor.
Qed.

(** X5.  With an open cursor, a statement that the server answers is
    sent once; [execute] returns all the rows, or the first row (or
    [None]) when [is_one] is true, and the rows that were not returned
    are left in the cursor. *)
Theorem execute_returns_rows_at_first_attempt
    (d : Driver) (query : string) (retry_counter : nat) (is_one : bool)
    (s : State) (cur : nat) (rows : list Row) :
  has_open_cursor s cur ->
  execute_outcome d (execute_calls (world s)) query = ExecuteOk rows ->
  fst (execute d query retry_counter is_one s)
  = Returns (if is_one then One (head rows) else All rows)
  /\ self (snd (execute d query retry_counter is_one s)) = self s
  /\ since s (snd (execute d query retry_counter is_one s)) = [ServerExecute query]
  /\ pending (world (snd (execute d query retry_counter is_one s))) cur
     = Some (if is_one then tail rows else []).
Proof.
  intros Hcur Hout. unfold execute.
  destruct (execute_rec_ok d (LIMIT_RETRIES - retry_counter) query retry_counter is_one
              s cur rows Hcur Hout)
    as (s' & -> & Hself & Ht & _ & _ & _ & _ & Hp).
  cbn [fst snd]. repeat split; try assumption.
  now apply since_app.
Qed.

Lemma execute_returns_rows_at_first_attempt_witness :
  fst (execute (Servers.steady [Servers.row1; Servers.row2]) "SELECT * FROM t" 0 true
         (Servers.started (Servers.steady [Servers.row1; Servers.row2])))
  = Returns (One (Some Servers.row1))
  /\ self (snd (execute (Servers.steady [Servers.row1; Servers.row2]) "SELECT * FROM t" 0 true
                  (Servers.started (Servers.steady [Servers.row1; Servers.row2]))))
     = self (Servers.started (Servers.steady [Servers.row1; Servers.row2]))
  /\ since (Servers.started (Servers.steady [Servers.row1; Servers.row2]))
       (snd (execute (Servers.steady [Servers.row1; Servers.row2]) "SELECT * FROM t" 0 true
               (Servers.started (Servers.steady [Servers.row1; Servers.row2]))))
     = [ServerExecute "SELECT * FROM t"]
  /\ pending (world (snd (execute (Servers.steady [Servers.row1; Servers.row2])
                            "SELECT * FROM t" 0 true
                            (Servers.started (Servers.steady [Servers.row1; Servers.row2])))))
       0
     = Some [Servers.row2].
Proof.
  apply (execute_returns_rows_at_first_attempt
           (Servers.steady [Servers.row1; Servers.row2]) "SELECT * FROM t" 0 true
           (Servers.started (Servers.steady [Servers.row1; Servers.row2])) 0
           [Servers.row1; Servers.row2]).
  - split; vm_compute; reflexivity.
  - reflexivity.
Defined.

(** X6.  From every state, when the server accepts the next
    connection, [reset] returns with a new connection and an open
    cursor on it, the connection held before is closed, and a following
    [execute] that the server answers returns its rows. *)
Theorem reset_then_execute_succeeds
    (d : Driver) (query : string) (is_one : bool) (s : State) (rows : list Row) :
  connect_outcome d (connect_calls (world s)) = ConnectOk ->
  execute_outcome d (execute_calls (world s)) query = ExecuteOk rows ->
  fst (reset d s) = Returns tt
  /\ _connection (self (snd (reset d s))) = Some (connect_calls (world s))
  /\ open_conns (world (snd (reset d s)))
     = {[connect_calls (world s)]} ∪ (open_conns (world s) ∖ held (self s))
  /\ has_open_cursor (snd (reset d s)) (length (cursors (world s)))
  /\ fst (execute d query 0 is_one (snd (reset d s)))
     = Returns (if is_one then One (head rows) else All rows).
Proof.
  intros Hup Hout.
  destruct (reset_state d s Hup)
    as (s' & -> & Hc & Hcur & _ & _ & Hop & _ & He & _).
  cbn [fst snd]. repeat split; try assumption; try apply Hcur.
  rewrite <- He in Hout.
  destruct (execute_rec_ok d (LIMIT_RETRIES - 0) query 0 is_one s' _ rows Hcur Hout)
    as (s'' & Hrun & _).
  unfold execute. now rewrite Hrun.
Qed.

Lemma reset_then_execute_succeeds_witness :
  fst (reset (Servers.steady [Servers.row1]) (Faults.dropped (Servers.steady [Servers.row1])))
  = Returns tt
  /\ _connection (self (snd (reset (Servers.steady [Servers.row1])
                               (Faults.dropped (Servers.steady [Servers.row1])))))
     = Some (connect_calls (world (Faults.dropped (Servers.steady [Servers.row1]))))
  /\ open_conns (world (snd (reset (Servers.steady [Servers.row1])
                               (Faults.dropped (Servers.steady [Servers.row1])))))
     = {[connect_calls (world (Faults.dropped (Servers.steady [Servers.row1])))]}
       ∪ (open_conns (world (Faults.dropped (Servers.steady [Servers.row1])))
          ∖ held (self (Faults.dropped (Servers.steady [Servers.row1]))))
  /\ has_open_cursor (snd (reset (Servers.steady [Servers.row1])
                             (Faults.dropped (Servers.steady [Servers.row1]))))
       (length (cursors (world (Faults.dropped (Servers.steady [Servers.row1])))))
  /\ fst (execute (Servers.steady [Servers.row1]) "SELECT * FROM t" 0 false
            (snd (reset (Servers.steady [Servers.row1])
                    (Faults.dropped (Servers.steady [Servers.row1])))))
     = Returns (All [Servers.row1]).
Proof.
  apply (reset_then_execute_succeeds (Servers.steady [Servers.row1]) "SELECT * FROM t" false
           (Faults.dropped (Servers.steady [Servers.row1])) [Servers.row1]).
  - reflexivity.
  - reflexivity.
Defined.

(** X7.  When the manager has no open cursor, and either holds an
    open connection or has none and the server accepts the next one,
    [cursor()] opens a new cursor, stores it and returns it. *)
Theorem cursor_opens_a_cursor_when_none_is_open (d : Driver) (s : State) :
  (forall cur, ~ has_open_cursor s cur) ->
  match _connection (self s) with
  | Some c => c ∈ open_conns (world s)
  | None => connect_outcome d (connect_calls (world s)) = ConnectOk
  end ->
  fst (cursor d s) = Returns (Some (length (cursors (world s))))
  /\ has_open_cursor (snd (cursor d s)) (length (cursors (world s)))
  /\ _connection (self (snd (cursor d s)))
     = Some (match _connection (self s) with
             | Some c => c
             | None => connect_calls (world s)
             end).
Proof.
  intros Hno Hconn.
  assert (Hcur : match _cursor (self s) with
                 | None => True
                 | Some cur => closed (world s) cur = true
                 end).
  { destruct (_cursor (self s)) as [cur|] eqn:Hc; [|exact I].
    destruct (closed (world s) cur) eqn:Ho; [reflexivity|].
    exfalso. apply (Hno cur). split; assumption. }
  destruct (_connection (self s)) as [c|] eqn:Hc.
  - rewrite (cursor_opened d s c Hcur Hc Hconn). cbn [fst snd].
    repeat split; [|exact Hc]. cbn [on_self on_world world].
    now apply fresh_cursor_open.
  - pose proof (connect_rec_ok d (LIMIT_RETRIES - 0) 0 s Hc Hconn) as Hrun.
    rewrite (cursor_connects d s _ _ Hcur Hc Hrun).
    set (s1 := on_self _ (on_world _ (attempted s))).
    assert (Hin : connect_calls (world s) ∈ open_conns (world s1))
      by (subst s1; fields; apply elem_of_union_l, elem_of_singleton; reflexivity).
    unfold self_connection, connection_cursor. run.
    change (_connection (self s1)) with (Some (connect_calls (world s))).
    run. rewrite (bool_decide_eq_true_2 _ Hin). run.
    change (cursors (world s1)) with (cursors (world s)).
    repeat split. cbn [world].
    change (cursors (world s)) with (cursors (world s1)).
    now apply fresh_cursor_open.
Qed.

Lemma cursor_opens_a_cursor_when_none_is_open_witness :
  fst (cursor (Servers.steady []) new_state) = Returns (Some (length (cursors (world new_state))))
  /\ has_open_cursor (snd (cursor (Servers.steady []) new_state))
       (length (cursors (world new_state)))
  /\ _connection (self (snd (cursor (Servers.steady []) new_state)))
     = Some (match _connection (self new_state) with
             | Some c => c
             | None => connect_calls (world new_state)
             end).
Proof.
  apply (cursor_opens_a_cursor_when_none_is_open (Servers.steady []) new_state).
  - intros cur [Hc _]. discriminate Hc.
  - reflexivity.
Defined.

(** X8.  When the manager holds a connection that was closed
    underneath it, [cursor()] does not reconnect: [_connection] is not
    [None], so line 52 asks the closed connection for a cursor and the
    driver's [InterfaceError] is raised, with nothing changed. *)
Theorem cursor_does_not_reconnect_a_closed_connection (d : Driver) (s : State) (c : nat) :
  _connection (self s) = Some c ->
  c ∉ open_conns (world s) ->
  (forall cur, ~ has_open_cursor s cur) ->
  cursor d s = (Raises (InterfaceError "connection already closed"), s).
Proof.
  intros Hc Hin Hno. apply cursor_raises_on_closed_connection with (c := c); try assumption.
  destruct (_cursor (self s)) as [cur|] eqn:Hk; [|exact I].
  destruct (closed (world s) cur) eqn:Ho; [reflexivity|].
  exfalso. apply (Hno cur). split; assumption.
Qed.

Lemma cursor_does_not_reconnect_a_closed_connection_witness :
  cursor (Servers.steady []) (Faults.dropped (Servers.steady []))
  = (Raises (InterfaceError "connection already closed"), Faults.dropped (Servers.steady [])).
Proof.
  apply (cursor_does_not_reconnect_a_closed_connection (Servers.steady [])
           (Faults.dropped (Servers.steady [])) 0).
  - reflexivity.
  - vm_compute. intros H. discriminate H.
  - intros cur [Hc Ho]. injection Hc as <-. vm_compute in Ho. discriminate Ho.
Defined.

(** X9.  [PgManager()]: when the first [k <= LIMIT_RETRIES]
    connection attempts fail with an [OperationalError] and the next
    one succeeds, the manager is built with that connection, the only
    one open, and an open cursor, after [k + 1] attempts and [k] sleeps
    of 5 seconds.  When the server refuses every attempt, the
    constructor raises the last error after [LIMIT_RETRIES + 1]
    attempts, with no connection open. *)
Theorem init_connects_and_opens_a_cursor (d : Driver) :
  (forall k : nat,
      k <= LIMIT_RETRIES ->
      (forall i, i < k ->
         exists msg, connect_outcome d i = ConnectFails (OperationalError msg)) ->
      connect_outcome d k = ConnectOk ->
      fst (init d new_state) = Returns tt
      /\ _connection (self (snd (init d new_state))) = Some k
      /\ has_open_cursor (snd (init d new_state)) 0
      /\ open_conns (world (snd (init d new_state))) = {[k]}
      /\ connects (trace (world (snd (init d new_state)))) = k + 1
      /\ sleeps (trace (world (snd (init d new_state)))) = repeat 5 k)
  /\ (refuses_all d ->
      exists e,
        fst (init d new_state) = Raises e
        /\ connect_outcome d LIMIT_RETRIES = ConnectFails e
        /\ self (snd (init d new_state)) = new_manager
        /\ open_conns (world (snd (init d new_state))) = ∅
        /\ connects (trace (world (snd (init d new_state)))) = LIMIT_RETRIES + 1).
Proof.
  assert (Hinit : init d new_state
                  = (connect d 0 ≫= fun _ => cursor d ≫= fun _ => mret tt) new_state)
    by reflexivity.
  split.
  - intros k Hk Hfail Hok.
    destruct (connect_rec_comes_up d k (S (LIMIT_RETRIES - 0)) 0 new_state)
      as (v & s1 & delta & Hrun & Hself & Hop & Hcs & _ & _ & Ht & Hcn & Hsl & _);
      try assumption; try reflexivity; try lia.
    cbn [new_state world self new_world new_manager connect_calls open_conns cursors
         trace with_connection _cursor reconnect last_query] in *.
    rewrite Nat.add_0_l in *. rewrite app_nil_l in Ht.
    assert (Hin : k ∈ open_conns (world s1))
      by (rewrite Hop; apply elem_of_union_l, elem_of_singleton; reflexivity).
    assert (Hcur : cursor d s1
                   = (Returns (Some (length (cursors (world s1)))),
                      on_self (with_cursor (Some (length (cursors (world s1)))))
                        (on_world (add_cursor (fresh_cursor k false)) s1))).
    { apply cursor_opened; rewrite ?Hself; cbn; auto. }
    rewrite Hinit. fold (connect d 0) in Hrun.
    rewrite (bind_returns _ _ _ _ _ Hrun), (bind_returns _ _ _ _ _ Hcur).
    cbn [mret M_ret fst snd]. fields.
    split; [reflexivity|].
    split; [rewrite Hself; reflexivity|].
    split.
    { split.
      - cbn [on_self self with_cursor _cursor]. now rewrite Hcs.
      - cbn [on_self on_world world].
        replace 0 with (length (cursors (world s1))) by now rewrite Hcs.
        now apply fresh_cursor_open. }
    split; [rewrite Hop; apply union_empty_r_L|].
    rewrite Ht, Hcn, Hsl. split; [lia | reflexivity].
  - intros Hall.
    destruct (connect_rec_exhausts d LIMIT_RETRIES (S LIMIT_RETRIES) 0 new_state)
      as (e & s' & delta & Hrun & Hlast & Hself & _ & Hop & Ht & Hk & _);
      try assumption; try reflexivity; try lia.
    exists e. rewrite Hinit.
    change (connect d 0) with (connect_rec d (S LIMIT_RETRIES) 0).
    rewrite (bind_raises _ _ _ _ _ Hrun). cbn [fst snd].
    rewrite Hself, Hop, Ht. cbn [new_state world self new_world trace open_conns app].
    repeat split; try assumption; lia.
Qed.

Lemma init_connects_and_opens_a_cursor_witness :
  (fst (init (Servers.flaky 3 0 []) new_state) = Returns tt
   /\ _connection (self (snd (init (Servers.flaky 3 0 []) new_state))) = Some 3
   /\ has_open_cursor (snd (init (Servers.flaky 3 0 []) new_state)) 0
   /\ open_conns (world (snd (init (Servers.flaky 3 0 []) new_state))) = {[3]}
   /\ connects (trace (world (snd (init (Servers.flaky 3 0 []) new_state)))) = 3 + 1
   /\ sleeps (trace (world (snd (init (Servers.flaky 3 0 []) new_state)))) = repeat 5 3)
  /\ (exists e,
        fst (init Servers.unreachable new_state) = Raises e
        /\ connect_outcome Servers.unreachable LIMIT_RETRIES = ConnectFails e
        /\ self (snd (init Servers.unreachable new_state)) = new_manager
        /\ open_conns (world (snd (init Servers.unreachable new_state))) = ∅
        /\ connects (trace (world (snd (init Servers.unreachable new_state))))
           = LIMIT_RETRIES + 1).
Proof.
  split.
  - apply (proj1 (init_connects_and_opens_a_cursor (Servers.flaky 3 0 [])) 3).
    + unfold LIMIT_RETRIES. lia.
    + intros i Hi. eexists.
      destruct i as [|[|[|i]]]; [reflexivity | reflexivity | reflexivity | lia].
    + reflexivity.
  - apply (proj2 (init_connects_and_opens_a_cursor Servers.unreachable)).
    intros n. eexists. reflexivity.
Defined.



(** X11.  [close] on a manager that holds a connection closes it,
    and marks the cursor it holds as closed; on a manager with no
    connection it touches nothing of the driver, also when a cursor is
    held.  It never calls the server and opens nothing. *)
Theorem close_closes_the_connection_and_the_cursor (s : State) :
  (forall c, _connection (self s) = Some c ->
     (c ∉ open_conns (world (snd (close s))))
     /\ (forall cur, _cursor (self s) = Some cur ->
           closed (world (snd (close s))) cur = true))
  /\ (_connection (self s) = None -> world (snd (close s)) = world s)
  /\ connect_calls (world (snd (close s))) = connect_calls (world s)
  /\ execute_calls (world (snd (close s))) = execute_calls (world s)
  /\ open_conns (world (snd (close s))) ⊆ open_conns (world s).
Proof.
  destruct s as [[conn cur rc lq] w]. unfold close. fields.
  destruct conn as [c|]; [destruct cur as [k|]|]; run; fields.
  - split; [|split; [discriminate|]].
    + intros c' Hc. injection Hc as <-. split.
      * apply not_elem_of_difference. right. now apply elem_of_singleton.
      * intros cur Hk. injection Hk as <-.
        unfold closed. fields. rewrite list_lookup_alter_eq.
        destruct (cursors w !! k); reflexivity.
    + repeat split. apply subseteq_difference_l. reflexivity.
  - split; [|split; [discriminate|]].
    + intros c' Hc. injection Hc as <-. split.
      * apply not_elem_of_difference. right. now apply elem_of_singleton.
      * intros cur Hk. discriminate Hk.
    + repeat split. apply subseteq_difference_l. reflexivity.
  - split; [intros c Hc; discriminate Hc|].
    repeat split; reflexivity.
Qed.

Lemma close_closes_the_connection_and_the_cursor_witness :
  (0 ∉ open_conns (world (snd (close (Servers.started (Servers.steady []))))))
  /\ closed (world (snd (close (Servers.started (Servers.steady []))))) 0 = true.
Proof.
  destruct (proj1 (close_closes_the_connection_and_the_cursor
                     (Servers.started (Servers.steady []))) 0 eq_refl) as [H1 H2].
  split; [exact H1 | exact (H2 0 eq_refl)].
Defined.

(** X12.  On a manager with an open connection, [batch_execute]
    sends the query once and yields the rows of the server in their
    order, through a named cursor of its own that is closed at the end;
    the fields of the manager and the cursors that existed before are
    as they were. *)
Theorem batch_execute_yields_the_rows
    (d : Driver) (query : string) (s : State) (c : nat) (rows : list Row) :
  _connection (self s) = Some c ->
  c ∈ open_conns (world s) ->
  execute_outcome d (execute_calls (world s)) query = ExecuteOk rows ->
  fst (batch_execute d query s) = Returns rows
  /\ self (snd (batch_execute d query s)) = self s
  /\ open_conns (world (snd (batch_execute d query s))) = open_conns (world s)
  /\ (forall cur, cur < length (cursors (world s)) ->
        cursors (world (snd (batch_execute d query s))) !! cur = cursors (world s) !! cur)
  /\ closed (world (snd (batch_execute d query s))) (length (cursors (world s))) = true
  /\ since s (snd (batch_execute d query s)) = [ServerExecute query].
Proof.
  intros Hc Hin Hout.
  rewrite (batch_execute_opens d query s c Hc Hin).
  set (k := length (cursors (world s))).
  set (s1 := on_world (add_cursor (fresh_cursor c true)) s).
  assert (Ho1 : closed (world s1) k = false) by now apply fresh_cursor_open.
  pose proof (cursor_execute_run d k query s1 Ho1) as Hexec.
  change (execute_calls (world s1)) with (execute_calls (world s)) in Hexec.
  rewrite Hout in Hexec.
  destruct (sent_open query k (Some rows) s1 Ho1) as [Ho2 Hp2].
  unfold try_except.
  rewrite (bind_returns _ _ _ _ _ Hexec),
    (bind_returns _ _ _ _ _ (fetchall_run _ _ _ Ho2 Hp2)).
  unfold cursor_close. run. cbn [fst snd].
  split; [reflexivity|]. split; [reflexivity|]. split; [reflexivity|].
  split; [|split].
  - intros cur Hlt. fields.
    rewrite !list_lookup_alter_ne by (unfold k; lia).
    now apply lookup_app_l.
  - apply closed_mark_closed.
  - apply since_app. reflexivity.
Qed.

Lemma batch_execute_yields_the_rows_witness :
  fst (batch_execute (Servers.steady [Servers.row1; Servers.row2]) "SELECT * FROM big"
         (Servers.started (Servers.steady [Servers.row1; Servers.row2])))
  = Returns [Servers.row1; Servers.row2]
  /\ self (snd (batch_execute (Servers.steady [Servers.row1; Servers.row2]) "SELECT * FROM big"
                  (Servers.started (Servers.steady [Servers.row1; Servers.row2]))))
     = self (Servers.started (Servers.steady [Servers.row1; Servers.row2]))
  /\ open_conns (world (snd (batch_execute (Servers.steady [Servers.row1; Servers.row2])
                               "SELECT * FROM big"
                               (Servers.started (Servers.steady [Servers.row1; Servers.row2])))))
     = open_conns (world (Servers.started (Servers.steady [Servers.row1; Servers.row2])))
  /\ (forall cur,
        cur < length (cursors (world (Servers.started
                                        (Servers.steady [Servers.row1; Servers.row2])))) ->
        cursors (world (snd (batch_execute (Servers.steady [Servers.row1; Servers.row2])
                               "SELECT * FROM big"
                               (Servers.started (Servers.steady [Servers.row1; Servers.row2])))))
          !! cur
        = cursors (world (Servers.started (Servers.steady [Servers.row1; Servers.row2]))) !! cur)
  /\ closed (world (snd (batch_execute (Servers.steady [Servers.row1; Servers.row2])
                           "SELECT * FROM big"
                           (Servers.started (Servers.steady [Servers.row1; Servers.row2])))))
       (length (cursors (world (Servers.started
                                  (Servers.steady [Servers.row1; Servers.row2])))))
     = true
  /\ since (Servers.started (Servers.steady [Servers.row1; Servers.row2]))
       (snd (batch_execute (Servers.steady [Servers.row1; Servers.row2]) "SELECT * FROM big"
               (Servers.started (Servers.steady [Servers.row1; Servers.row2]))))
     = [ServerExecute "SELECT * FROM big"].
Proof.
  apply (batch_execute_yields_the_rows (Servers.steady [Servers.row1; Servers.row2])
           "SELECT * FROM big"
           (Servers.started (Servers.steady [Servers.row1; Servers.row2])) 0
           [Servers.row1; Servers.row2]).
  - reflexivity.
  - apply (bool_decide_unpack _). vm_compute. exact I.
  - reflexivity.
Defined.



(** X14.  With an open cursor, when the server answers the query
    that [select] builds, [select] returns every row of the answer as a
    list, whatever [limit] says, records the query and sends it once. *)
Theorem select_returns_every_row
    (d : Driver) (table : string) (args : Query.SelectArgs)
    (s : State) (cur : nat) (rows : list Row) :
  has_open_cursor s cur ->
  execute_outcome d (execute_calls (world s)) (Query.build_query table args) = ExecuteOk rows ->
  fst (select d table args s) = Returns (All rows)
  /\ last_query (self (snd (select d table args s))) = Some (Query.build_query table args)
  /\ since s (snd (select d table args s)) = [ServerExecute (Query.build_query table args)].
Proof.
  intros [Hc Ho] Hout. unfold select, execute.
  set (q := Query.build_query table args) in *.
  set (s0 := on_self (with_last_query q) s).
  change ((set_last_query q ≫= fun _ => execute_rec d (S (LIMIT_RETRIES - 0)) q 0 false) s)
    with (execute_rec d (S (LIMIT_RETRIES - 0)) q 0 false s0).
  assert (Hcur0 : has_open_cursor s0 cur) by (split; [exact Hc | exact Ho]).
  destruct (execute_rec_ok d (LIMIT_RETRIES - 0) q 0 false s0 cur rows Hcur0 Hout)
    as (s' & -> & Hself & Ht & _).
  cbn [fst snd]. split; [reflexivity|]. split; [now rewrite Hself|].
  now apply since_app.
Qed.

Lemma select_returns_every_row_witness :
  fst (select (Servers.steady [Servers.row1; Servers.row2]) "t" Query.default_args
         (Servers.started (Servers.steady [Servers.row1; Servers.row2])))
  = Returns (All [Servers.row1; Servers.row2])
  /\ last_query (self (snd (select (Servers.steady [Servers.row1; Servers.row2]) "t"
                              Query.default_args
                              (Servers.started (Servers.steady [Servers.row1; Servers.row2])))))
     = Some (Query.build_query "t" Query.default_args)
  /\ since (Servers.started (Servers.steady [Servers.row1; Servers.row2]))
       (snd (select (Servers.steady [Servers.row1; Servers.row2]) "t" Query.default_args
               (Servers.started (Servers.steady [Servers.row1; Servers.row2]))))
     = [ServerExecute (Query.build_query "t" Query.default_args)].
Proof.
  apply (select_returns_every_row (Servers.steady [Servers.row1; Servers.row2]) "t"
           Query.default_args
           (Servers.started (Servers.steady [Servers.row1; Servers.row2])) 0
           [Servers.row1; Servers.row2]).
  - split; vm_compute; reflexivity.
  - reflexivity.
Defined.

(** X15.  [select] records the query it built in [last_query]
    whatever happens next: also when [execute] raises, at once or after
    its retries.  [reconnect] is as it was. *)
Theorem select_records_the_query_whatever_happens
    (d : Driver) (table : string) (args : Query.SelectArgs) (s : State) :
  last_query (self (snd (select d table args s))) = Some (Query.build_query table args)
  /\ reconnect (self (snd (select d table args s))) = reconnect (self s)
  /\ fst (select d table args s) <> OutOfFuel.
Proof.
  unfold select.
  set (q := Query.build_query table args).
  set (s0 := on_self (with_last_query q) s).
  change ((set_last_query q ≫= fun _ => execute d q 0 false) s) with (execute d q 0 false s0).
  destruct (SettingsFacts.kept_execute d (reconnect (self s)) (Some q) q 0 false s0)
    as [[Hr Hq] Hf]; [split; reflexivity|].
  repeat split; assumption.
Qed.

(** X16.  No method other than [select] assigns [last_query], and
    none assigns [reconnect]: [connect], [cursor], [execute], [reset],
    [close] and [batch_execute] leave both as they were, whatever the
    server does. *)
Theorem methods_keep_reconnect_and_last_query (d : Driver) (s : State) :
  (forall rc, Settings.settings_are (reconnect (self s)) (last_query (self s))
                (snd (connect d rc s)))
  /\ Settings.settings_are (reconnect (self s)) (last_query (self s)) (snd (cursor d s))
  /\ (forall q rc is_one,
        Settings.settings_are (reconnect (self s)) (last_query (self s))
          (snd (execute d q rc is_one s)))
  /\ Settings.settings_are (reconnect (self s)) (last_query (self s)) (snd (reset d s))
  /\ Settings.settings_are (reconnect (self s)) (last_query (self s)) (snd (close s))
  /\ (forall q, Settings.settings_are (reconnect (self s)) (last_query (self s))
                  (snd (batch_execute d q s))).
Proof.
  assert (H0 : Settings.settings_are (reconnect (self s)) (last_query (self s)) s)
    by (split; reflexivity).
  split; [intros rc; now apply SettingsFacts.kept_connect|].
  split; [now apply SettingsFacts.kept_cursor|].
  split; [intros q rc is_one; now apply SettingsFacts.kept_execute|].
  split; [now apply SettingsFacts.kept_reset|].
  split; [now apply SettingsFacts.kept_close|].
  intros q. now apply SettingsFacts.kept_batch_execute.
Qed.

(** X17.  The WHERE clause of [select] is the conjunction of every
    condition of every operator group, in the order of the mappings,
    joined by [AND]; it is left out exactly when there is no condition
    at all, also when the groups are there and empty. *)
Theorem where_clause_joins_every_condition (query : string) (args : Query.SelectArgs) :
  fst (Query.collect_filters (Query.filters args)) = QueryMore.all_conditions (Query.filters args)
  /\ Query.add_where query args
     = match QueryMore.all_conditions (Query.filters args) with
       | [] => query
       | conditions => query +:+ " WHERE " +:+ Query.join " AND " conditions
       end
  /\ Query.build_query "mytable"
       {| Query.columns := Query.ColStr "*";
          Query.filters := [("is", [("title", Query.Scalar Query.ANone)]);
                            ("=", [("owner", Query.Scalar (Query.AStr "affinity"))])];
          Query.order_by := None; Query.ascending := true;
          Query.limit := Some 1%Z; Query.random := false |}
     = "SELECT * FROM mytable WHERE title is null AND owner = 'affinity' LIMIT 1".
Proof.
  split; [|split; [|vm_compute; reflexivity]];
    unfold Query.add_where, Query.collect_filters;
    rewrite QueryMoreFacts.collect_filters_from; cbn [fst snd app];
    [reflexivity|].
  destruct (Query.filters args) as [|fc fs] eqn:Hf; [reflexivity|].
  destruct (QueryMore.all_conditions (fc :: fs)) as [|x l] eqn:Hall; [reflexivity|].
  rewrite QueryMoreFacts.join_truthy; [reflexivity|].
  assert (Hin : In x (QueryMore.all_conditions (fc :: fs))) by (rewrite Hall; now left).
  unfold QueryMore.all_conditions in Hin.
  apply in_flat_map in Hin as (fc' & _ & Hin).
  apply in_map_iff in Hin as (cv & <- & _).
  apply QueryFacts.filter_fragment_truthy.
Qed.





(** X20.  With [size = 0], [chunked_iterable] yields nothing,
    whatever the items; with a negative [size] it raises the
    [ValueError] of [islice]. *)
Theorem chunked_iterable_without_a_positive_size (A : Type) (iterable : list A) (size : Z) :
  (size <= 0)%Z ->
  Common.chunked_iterable iterable size
  = if (size =? 0)%Z then Common.Chunks [] else Common.ValueError.
Proof.
  intros Hs. unfold Common.chunked_iterable.
  destruct (Z.ltb_spec size 0) as [Hneg|Hpos].
  - destruct (Z.eqb_spec size 0); [lia | reflexivity].
  - assert (size = 0%Z) as -> by lia.
    cbn. now rewrite CommonFacts.chunks_unfold, take_0.
Qed.

Lemma chunked_iterable_without_a_positive_size_witness :
  Common.chunked_iterable [1; 2; 3] 0 = Common.Chunks []
  /\ Common.chunked_iterable [1; 2; 3] (-1) = Common.ValueError.
Proof.
  split.
  - apply (chunked_iterable_without_a_positive_size nat [1; 2; 3] 0). lia.
  - apply (chunked_iterable_without_a_positive_size nat [1; 2; 3] (-1)). lia.
Defined.

(** X21.  [_filename_without_prefix] gives the text after the first
    underscore, and the empty text for a name with no underscore. *)
Theorem filename_without_prefix_drops_the_first_piece (file : string) :
  (Io.has_char "_"%char file = false -> Io._filename_without_prefix file = "")
  /\ (forall prefix rest : string,
        Io.has_char "_"%char prefix = false ->
        file = prefix +:+ "_" +:+ rest ->
        Io._filename_without_prefix file = rest).
Proof.
  split.
  - intros H. unfold Io._filename_without_prefix.
    now rewrite IoFacts.split_without.
  - intros prefix rest Hp ->. unfold Io._filename_without_prefix.
    change ("_" +:+ rest) with (String "_"%char rest).
    rewrite IoFacts.split_at_first by exact Hp. cbn [tail].
    apply IoFacts.concat_split.
Qed.

Lemma filename_without_prefix_drops_the_first_piece_witness :
  Io._filename_without_prefix "README" = ""
  /\ Io._filename_without_prefix "model_v1_final.pkl" = "v1_final.pkl".
Proof.
  split.
  - apply (proj1 (filename_without_prefix_drops_the_first_piece "README")). reflexivity.
  - apply (proj2 (filename_without_prefix_drops_the_first_piece "model_v1_final.pkl")
             "model" "v1_final.pkl"); reflexivity.
Defined.
